(** * dltpy: the DLT decode pipeline of [dltpy/dltfile.py]

    A shallow embedding of the Python module [dltpy/dltfile.py]: the payload
    decoder ([get_value], [parse_payload]), the message object
    ([DltMessage]: [loadn], [match], the memoized [payload] property), the
    stream reader ([DltReader]) and the file reader ([DltFile], with its
    signature resynchronisation).

    Python objects are records, [None]-able attributes are [option]s,
    exceptions are an explicit [result], the [logging] calls append to a
    log, and [while] loops that Python does not bound are run on fuel
    ([None] = the fuel ran out).  The generated parsers
    ([dltpy.gen.payload_item], [dltpy.gen.stored_message]) and the native
    reader ([dltpy.native.native_dltreader]) are parameters of the sections
    that use them; a concrete wire format is given afterwards to run the
    model on bytes. *)

From Stdlib Require Import ZArith NArith List Bool Lia Arith.
From Stdlib Require Import Strings.Byte Strings.Ascii Strings.String.
From Stdlib Require Import Floats.PrimFloat Floats.FloatOps Numbers.Cyclic.Int63.Uint63.
Import ListNotations.

Set Implicit Arguments.

(* Decimal float literals denote the nearest binary64 value, as in Python. *)
Set Warnings "-inexact-float".

(* ===================================================================== *)
(** * Python values the module manipulates                                *)
(* ===================================================================== *)

Module Py.

(** [bytes] objects. *)
Definition bytes := list byte.

(** [str] objects, as their sequence of Unicode code points. *)
Definition str := list N.

(** The exceptions that can leave the functions modelled here. *)
Inductive exn : Type :=
| AssertionError
| IndexError
| TypeError
| UnicodeDecodeError
| EOFError              (* the stream ended inside a read *)
| ValidationError.      (* a generated parser rejected a field *)

(** The outcome of a call: a value, or an exception that propagates. *)
Inductive result (A : Type) : Type :=
| Ok (a : A)
| Raise (e : exn).
Arguments Ok {A} a.
Arguments Raise {A} e.

Definition bind {A B} (r : result A) (k : A -> result B) : result B :=
  match r with
  | Ok a => k a
  | Raise e => Raise e
  end.

Definition bytes_eqb (a b : bytes) : bool :=
  if list_eq_dec Byte.byte_eq_dec a b then true else false.

Definition str_eqb (a b : str) : bool :=
  if list_eq_dec N.eq_dec a b then true else false.

(** [b[start:stop]] for [0 <= start <= stop]. *)
Definition slice (b : bytes) (start stop : nat) : bytes :=
  firstn (stop - start) (skipn start b).

(** [b.replace(b'\0', b'')]: every NUL byte is removed. *)
Definition strip_nul (b : bytes) : bytes :=
  filter (fun c => negb (Byte.eqb c Byte.x00)) b.

Definition is_cont (c : N) : bool := ((128 <=? c) && (c <=? 191))%N.

(** [b.decode()]: strict UTF-8. *)
Fixpoint decode (b : bytes) : result str :=
  match b with
  | [] => Ok []
  | b0 :: r0 =>
    let c0 := Byte.to_N b0 in
    if (c0 <? 128)%N then bind (decode r0) (fun s => Ok (c0 :: s))
    else if ((194 <=? c0) && (c0 <=? 223))%N then
      match r0 with
      | b1 :: r1 =>
        let c1 := Byte.to_N b1 in
        if is_cont c1
        then bind (decode r1) (fun s => Ok (((c0 - 192) * 64 + (c1 - 128)) :: s)%N)
        else Raise UnicodeDecodeError
      | _ => Raise UnicodeDecodeError
      end
    else if ((224 <=? c0) && (c0 <=? 239))%N then
      match r0 with
      | b1 :: b2 :: r2 =>
        let c1 := Byte.to_N b1 in
        let c2 := Byte.to_N b2 in
        let lo := (if c0 =? 224 then 160 else 128)%N in
        let hi := (if c0 =? 237 then 159 else 191)%N in
        if ((lo <=? c1) && (c1 <=? hi))%N && is_cont c2
        then bind (decode r2)
               (fun s => Ok (((c0 - 224) * 4096 + (c1 - 128) * 64 + (c2 - 128)) :: s)%N)
        else Raise UnicodeDecodeError
      | _ => Raise UnicodeDecodeError
      end
    else if ((240 <=? c0) && (c0 <=? 244))%N then
      match r0 with
      | b1 :: b2 :: b3 :: r3 =>
        let c1 := Byte.to_N b1 in
        let c2 := Byte.to_N b2 in
        let c3 := Byte.to_N b3 in
        let lo := (if c0 =? 240 then 144 else 128)%N in
        let hi := (if c0 =? 244 then 143 else 191)%N in
        if ((lo <=? c1) && (c1 <=? hi))%N && is_cont c2 && is_cont c3
        then bind (decode r3)
               (fun s => Ok (((c0 - 240) * 262144 + (c1 - 128) * 4096
                              + (c2 - 128) * 64 + (c3 - 128)) :: s)%N)
        else Raise UnicodeDecodeError
      | _ => Raise UnicodeDecodeError
      end
    else Raise UnicodeDecodeError
  end.

(** A [str] literal of ASCII characters. *)
Definition str_of_string (s : string) : str :=
  map Byte.to_N (list_byte_of_string s).

(** [float(z)] for the integers of a header ([|z| < 2^63]). *)
Definition float_of_int (z : Z) : float :=
  if (z <? 0)%Z
  then PrimFloat.opp (PrimFloat.of_uint63 (Uint63.of_Z (- z)))
  else PrimFloat.of_uint63 (Uint63.of_Z z).

(** Truth value of an attribute holding a [bool] or [None]. *)
Definition truthy (v : option bool) : bool :=
  match v with
  | Some b => b
  | None => false
  end.

Definition hex_digit (n : N) : ascii :=
  ascii_of_N (if (n <? 10)%N then 48 + n else 87 + n).

(** [hexlify(v).decode()] *)
Fixpoint hex (v : bytes) : string :=
  match v with
  | [] => EmptyString
  | b :: r =>
    let n := Byte.to_N b in
    String (hex_digit (n / 16)) (String (hex_digit (n mod 16)) (hex r))
  end.

End Py.
Import Py.

(** The records the module hands to [logging]. *)
Inductive log_record : Type :=
| LogCantParsePayload (pl_hex : string) (start : nat)
    (* error: "Can't parse payload %s at offset %d" *)
| LogCantParseMessage (start_offset : nat)
    (* exception: "Can't parse message at offset %d, will try to recover" *)
| LogSignatureFound (start_offset : nat)
    (* warning: "DLT signature found at offset %d, continue" *)
| LogBufferToBeRead (n : nat)
    (* warning: "Buffer to be read: %d" *)
| LogReadintoEOF.
    (* warning: "readinto returned 0, EOF" *)

(** What the functions below act on besides their arguments: the log, and
    a count of the calls of [parse_payload] (the parse counter of a test
    double). *)
Record World : Type := mkWorld {
  log : list log_record;
  parse_calls : nat
}.

Definition emit (r : log_record) (w : World) : World :=
  mkWorld (log w ++ [r]) (parse_calls w).

Definition count_parse (w : World) : World :=
  mkWorld (log w) (S (parse_calls w)).

Definition world0 : World := mkWorld [] 0.

(* ===================================================================== *)
(** * Payload items ([dltpy.gen.payload_item]) and their values           *)
(* ===================================================================== *)

(** [PayloadItem.SizedString]: a declared length and that many bytes. *)
Record SizedString : Type := mkSizedString {
  len : Z;
  data : bytes
}.

(** What an attribute of a parsed item, or an entry of a decoded payload,
    can hold. *)
Inductive value : Type :=
| VSizedString (s : SizedString)
| VBytes (b : bytes)
| VInt (z : Z)
| VFloat (f : float)
| VBool (b : bool).

(** A parsed [PayloadItem]: the [strg] bit of its type info [plt], and the
    attributes the parser has set.  An attribute the parser did not set is
    absent ([hasattr] is false): [None]. *)
Record PayloadItem : Type := mkPayloadItem {
  plt_strg : bool;
  attr_str : option value;
  attr_uint : option value;
  attr_sint : option value;
  attr_float : option value;
  attr_bool : option value
}.

(** [get_value]: the first attribute present among 'str', 'uint', 'sint',
    'float', 'bool'; [None] when the item has none of them. *)
Definition get_value (p : PayloadItem) : option value :=
  match attr_str p with
  | Some v => Some v
  | None =>
    match attr_uint p with
    | Some v => Some v
    | None =>
      match attr_sint p with
      | Some v => Some v
      | None =>
        match attr_float p with
        | Some v => Some v
        | None => attr_bool p
        end
      end
    end
  end.

(** [if isinstance(value, PayloadItem.SizedString): value = value.data] *)
Definition unwrap_sized (v : value) : value :=
  match v with
  | VSizedString s => VBytes (data s)
  | _ => v
  end.

(** [assert value[-1] == 0; value = value[:-1]] *)
Definition strip_terminator (v : value) : result value :=
  match v with
  | VBytes b =>
    match b with
    | [] => Raise IndexError
    | _ :: _ =>
      if Byte.eqb (last b Byte.x00) Byte.x00
      then Ok (VBytes (removelast b))
      else Raise AssertionError
    end
  | _ => Raise TypeError
  end.

(** Lines 49-55 of [parse_payload]: what is appended for an item whose
    value is [v]. *)
Definition expose (item : PayloadItem) (v : value) : result value :=
  let v := unwrap_sized v in
  if plt_strg item then strip_terminator v else Ok v.

(* ===================================================================== *)
(** * Headers as the readers hand them over, and [DltMessage]             *)
(* ===================================================================== *)

(** [get_extended()]: a dict with keys 'app', 'ctx', 'verbose'. *)
Record ExtendedHeader : Type := mkExtendedHeader {
  ehdr_app : bytes;
  ehdr_ctx : bytes;
  ehdr_verbose : bool
}.

(** [get_basic()]: a dict in which the key 'tmsp' may be missing. *)
Record BasicHeader : Type := mkBasicHeader {
  tmsp : option Z
}.

(** [get_storage()]: a dict with keys 'ts_sec' and 'ts_msec'. *)
Record StorageHeader : Type := mkStorageHeader {
  ts_sec : Z;
  ts_msec : Z
}.

(** The object [loadn] reads a message from: the answers of
    [get_extended], [get_basic], [get_storage], [get_payload] and
    [get_message]. *)
Record Raw : Type := mkRaw {
  get_extended : option ExtendedHeader;
  get_basic : BasicHeader;
  get_storage : StorageHeader;
  get_payload : bytes;
  get_message : bytes
}.

(** A [DltMessage] once [__init__] has returned.  [app], [ctx], [ts],
    [verbose] and [_payload_cache] may still be [None]; [date],
    [raw_payload] and [_raw_data] are always assigned by [loadn]. *)
Record DltMessage : Type := mkDltMessage {
  app : option str;
  ctx : option str;
  ts : option float;
  date : float;
  verbose : option bool;
  raw_payload : bytes;
  payload_cache : option (list value);
  raw_data : bytes
}.

Definition set_payload_cache (m : DltMessage) (c : option (list value)) : DltMessage :=
  mkDltMessage (app m) (ctx m) (ts m) (date m) (verbose m) (raw_payload m) c (raw_data m).

(** A filter: [(app, ctx)], each a [str] or [None]. *)
Definition filter_pair : Type := (option str * option str)%type.

Module DltMessage.

(** [loadn], run by [__init__] on the fresh object; [raw_data] is the
    constructor's argument, overwritten at the end of [loadn]. *)
Definition loadn (raw : Raw) (raw_data : option bytes) : result DltMessage :=
  let ehdr := get_extended raw in
  let bhdr := get_basic raw in
  let shdr := get_storage raw in
  bind (match ehdr with
        | Some e =>
          bind (decode (strip_nul (ehdr_app e))) (fun a =>
          bind (decode (strip_nul (ehdr_ctx e))) (fun c =>
          Ok (Some a, Some c, Some (ehdr_verbose e))))
        | None => Ok (None, None, None)
        end)
    (fun '(a, c, v) =>
       let t := match tmsp bhdr with
                | Some n => if (n =? 0)%Z then None
                            else Some (PrimFloat.mul 1e-4%float (float_of_int n))
                | None => None
                end in
       let d := PrimFloat.add (float_of_int (ts_sec shdr))
                  (PrimFloat.mul (float_of_int (ts_msec shdr)) 1e-3%float) in
       Ok (mkDltMessage a c t d v (get_payload raw) None (get_message raw))).

(** [(app is None or self.app == app) and (ctx is None or self.ctx == ctx)] *)
Definition attr_eq (mine : option str) (wanted : str) : bool :=
  match mine with
  | Some s => str_eqb s wanted
  | None => false
  end.

Definition pair_matches (m : DltMessage) (f : filter_pair) : bool :=
  let '(fa, fc) := f in
  (match fa with None => true | Some a => attr_eq (app m) a end)
  && (match fc with None => true | Some c => attr_eq (ctx m) c end).

(** [match] *)
Fixpoint match_ (m : DltMessage) (filters : list filter_pair) : bool :=
  match filters with
  | [] => false
  | f :: rest => if pair_matches m f then true else match_ m rest
  end.

End DltMessage.

(* ===================================================================== *)
(** * [parse_payload] and the [payload] property                          *)
(* ===================================================================== *)

Section PayloadDecoder.

(** [PayloadItem.from_io(s)] on the stream [s = io.BytesIO(pl)] standing
    at [pos]: the item and the position after it, or an exception. *)
Variable from_io : bytes -> nat -> result (PayloadItem * nat).

(** The [while s.tell() < len(pl)] loop of [parse_payload]. *)
Fixpoint parse_loop (fuel : nat) (pl : bytes) (pos : nat) (ret : list value)
         (w : World) : option (result (option (list value)) * World) :=
  match fuel with
  | 0 => None
  | S fuel' =>
    if pos <? List.length pl then
      let start := pos in
      match from_io pl pos with
      | Raise e => Some (Raise e, w)
      | Ok (item, pos') =>
        match get_value item with
        | None => Some (Ok None, emit (LogCantParsePayload (hex pl) start) w)
        | Some v =>
          match expose item v with
          | Raise e => Some (Raise e, w)
          | Ok v' => parse_loop fuel' pl pos' (ret ++ [v']) w
          end
        end
      end
    else Some (Ok (Some ret), w)
  end.

(** [parse_payload].  A stream only moves forward, so the loop either
    returns within [len(pl)] items or never does. *)
Definition parse_payload (pl : bytes) (w : World)
  : option (result (option (list value)) * World) :=
  parse_loop (S (List.length pl)) pl 0 [] (count_parse w).

(** The [payload] property: the value returned (or the exception), the
    message afterwards, and the world afterwards. *)
Definition payload (m : DltMessage) (w : World)
  : option (result (option (list value)) * DltMessage * World) :=
  match payload_cache m with
  | None =>
    match parse_payload (raw_payload m) w with
    | None => None
    | Some (Raise e, w') => Some (Raise e, m, w')
    | Some (Ok r, w') => Some (Ok r, set_payload_cache m r, w')
    end
  | Some c => Some (Ok (Some c), m, w)
  end.

(** The loop of [parse_payload] stands at [pos] having appended [ret],
    after decoding [items] one after the other from offset 0. *)
Inductive decodes_to (pl : bytes) : nat -> list PayloadItem -> list value -> Prop :=
| decodes_nil : decodes_to pl 0 [] []
| decodes_snoc pos items ret item pos' v v' :
    decodes_to pl pos items ret ->
    pos < List.length pl ->
    from_io pl pos = Ok (item, pos') ->
    pos < pos' ->
    get_value item = Some v ->
    expose item v = Ok v' ->
    decodes_to pl pos' (items ++ [item]) (ret ++ [v']).

End PayloadDecoder.


(** How an iteration ([__iter__]) ended. *)
Inductive ending : Type :=
| Exhausted               (* [get_next_message] returned [None]: [return] *)
| Raised (e : exn)        (* an exception left [get_next_message] *)
| OutOfFuel.

(* ===================================================================== *)
(** * [DltReader]: stream mode over the native reader                     *)
(* ===================================================================== *)

Module DltReader.

Section Reader.

(** The native reader [self.rdr] and the byte source [self.fd]. *)
Variable NativeReader : Type.
Variable Fd : Type.

(** [rdr.read()]: whether a whole message is available now. *)
Variable read : NativeReader -> bool * NativeReader.
(** [len(rdr.get_buffer())]: the room the reader offers to [readinto]. *)
Variable get_buffer : NativeReader -> nat.
(** [fd.readinto(buf)]: the bytes it stores into [buf] (it returns their
    number), and the source afterwards. *)
Variable readinto : Fd -> nat -> bytes * Fd.
(** The reader once [readinto] has stored [chunk] in its buffer and
    [update_buffer(len(chunk))] has been called. *)
Variable update_buffer : NativeReader -> bytes -> NativeReader.
Variable consume_message : NativeReader -> NativeReader.
(** The current message as [loadn] sees it through the reader. *)
Variable current : NativeReader -> Raw.

Record state : Type := mkState {
  rdr : NativeReader;
  fd : Fd;
  world : World
}.

(** [get_next_message] *)
Fixpoint get_next_message (fuel : nat) (st : state)
  : option (result (option DltMessage) * state) :=
  match fuel with
  | 0 => None
  | S fuel' =>
    let (available, r) := read (rdr st) in
    if available then
      match DltMessage.loadn (current r) None with
      | Raise e => Some (Raise e, mkState r (fd st) (world st))
      | Ok m => Some (Ok (Some m), mkState (consume_message r) (fd st) (world st))
      end
    else
      let n := get_buffer r in
      let w := emit (LogBufferToBeRead n) (world st) in
      let (chunk, fd') := readinto (fd st) n in
      let l := List.length chunk in
      if l =? 0 then Some (Ok None, mkState r fd' (emit LogReadintoEOF w))
      else get_next_message fuel' (mkState (update_buffer r chunk) fd' w)
  end.

(** [__iter__]: the messages yielded, in order, and how the loop ended. *)
Fixpoint iter (fuel : nat) (st : state) : list DltMessage * ending :=
  match fuel with
  | 0 => ([], OutOfFuel)
  | S fuel' =>
    match get_next_message fuel st with
    | None => ([], OutOfFuel)
    | Some (Raise e, _) => ([], Raised e)
    | Some (Ok None, _) => ([], Exhausted)
    | Some (Ok (Some ret), st') =>
      if negb (truthy (verbose ret)) then iter fuel' st'
      else let (ms, e) := iter fuel' st' in (ret :: ms, e)
    end
  end.

End Reader.

End DltReader.

(* ===================================================================== *)
(** * [DltFile]: file mode with signature resynchronisation               *)
(* ===================================================================== *)

(** The class [DltFile] as the module defines it (its last statement then
    rebinds the name [DltFile] to [DltReader]). *)
Module DltFile.

(** [b'DLT\x01'] *)
Definition DLT_SIGNATURE : bytes := [Byte.x44; Byte.x4c; Byte.x54; Byte.x01].

(** The open file: its content, the position of [self.fd], the world. *)
Record state : Type := mkState {
  content : bytes;
  pos : nat;
  world : World
}.

(** [self._f_len] *)
Definition f_len (st : state) : nat := List.length (content st).

(** [fd.seek(offset); buf = fd.read(4)] *)
Definition read4 (st : state) (offset : nat) : bytes * state :=
  (firstn 4 (skipn offset (content st)),
   mkState (content st) (Nat.min (offset + 4) (f_len st)) (world st)).

(** The recovery loop [while start_offset < self._f_len], run at most [n]
    times. *)
Fixpoint recover (n : nat) (start_offset : nat) (st : state) : state :=
  match n with
  | 0 => st
  | S n' =>
    if start_offset <? f_len st then
      let (buf, st1) := read4 st start_offset in
      if bytes_eqb buf DLT_SIGNATURE
      then mkState (content st1) start_offset
             (emit (LogSignatureFound start_offset) (world st1))
      else recover n' (start_offset + 1) st1
    else st
  end.

Section File.

(** [StoredMessage.from_io(self.fd)] with the file standing at an offset:
    the parsed message (as [loadn] reads it) or an exception, and the
    offset the file is left at. *)
Variable from_io : bytes -> nat -> result Raw * nat.
(** [self.filters], [None] when the caller gave none. *)
Variable filters : option (list filter_pair).
(** [self._capture_raw] *)
Variable capture_raw : bool.

(** [get_next_message] *)
Fixpoint get_next_message (fuel : nat) (st : state)
  : option (result (option DltMessage) * state) :=
  match fuel with
  | 0 => None
  | S fuel' =>
    if pos st =? f_len st then Some (Ok None, st)
    else
      let start_offset := pos st in
      match from_io (content st) start_offset with
      | (Raise _, p) =>
        let st1 := mkState (content st) p
                     (emit (LogCantParseMessage start_offset) (world st)) in
        get_next_message fuel' (recover (f_len st) (start_offset + 1) st1)
      | (Ok sm, end_offset) =>
        let raw_data :=
          if capture_raw then Some (slice (content st) start_offset end_offset)
          else None in
        let st1 := mkState (content st) end_offset (world st) in
        match DltMessage.loadn sm raw_data with
        | Raise e => Some (Raise e, st1)
        | Ok msg =>
          if truthy (verbose msg) then
            match filters with
            | Some fs =>
              if negb (DltMessage.match_ msg fs) then get_next_message fuel' st1
              else Some (Ok (Some msg), st1)
            | None => Some (Ok (Some msg), st1)
            end
          else get_next_message fuel' st1
        end
      end
  end.

(** [__iter__]: the messages yielded, how the loop ended, the file then. *)
Fixpoint iter (fuel : nat) (st : state) : list DltMessage * ending * state :=
  match fuel with
  | 0 => ([], OutOfFuel, st)
  | S fuel' =>
    match get_next_message fuel st with
    | None => ([], OutOfFuel, st)
    | Some (Raise e, st') => ([], Raised e, st')
    | Some (Ok None, st') => ([], Exhausted, st')
    | Some (Ok (Some ret), st') =>
      let '(ms, e, st'') := iter fuel' st' in (ret :: ms, e, st'')
    end
  end.

(** What [get_next_message] lets through. *)
Definition surfaced (msg : DltMessage) : bool :=
  truthy (verbose msg)
  && match filters with
     | Some fs => DltMessage.match_ msg fs
     | None => true
     end.

End File.

(** [open]: the file at offset 0. *)
Definition opened (b : bytes) : state := mkState b 0 world0.

(** The signature stands at [offset]. *)
Definition signature_at (b : bytes) (offset : nat) : bool :=
  bytes_eqb (firstn 4 (skipn offset b)) DLT_SIGNATURE.

End DltFile.


(* ===================================================================== *)
(** * The wire format                                                     *)
(* ===================================================================== *)

(** The generated parsers and the native reader are not part of the
    sources modelled above; the definitions of this module stand in for
    them so that the model runs on bytes. *)
Module Wire.

(** A parser over a stream: the content and the position before give a
    value or an exception, and the position after. *)
Definition reader (A : Type) : Type := bytes -> nat -> result A * nat.

Definition ret {A : Type} (a : A) : reader A := fun _ p => (Ok a, p).

Definition fail {A : Type} (e : exn) : reader A := fun _ p => (Raise e, p).

Definition rbind {A B : Type} (r : reader A) (k : A -> reader B) : reader B :=
  fun b p =>
    match r b p with
    | (Ok a, p') => k a b p'
    | (Raise e, p') => (Raise e, p')
    end.

Notation "x <- c ;; k" := (rbind c (fun x => k))
  (at level 61, c at next level, right associativity).

(** Read exactly [n] bytes; a short read consumes what is left and raises
    [EOFError]. *)
Definition read_bytes (n : nat) : reader bytes :=
  fun b p =>
    if p + n <=? List.length b then (Ok (slice b p (p + n)), p + n)
    else (Raise EOFError, List.length b).

Fixpoint le_to_Z (bs : bytes) : Z :=
  match bs with
  | [] => 0
  | b :: r => Z.of_N (Byte.to_N b) + 256 * le_to_Z r
  end.

Definition be_to_Z (bs : bytes) : Z := le_to_Z (rev bs).

Definition uint_le (n : nat) : reader Z := bs <- read_bytes n ;; ret (le_to_Z bs).

Definition uint_be (n : nat) : reader Z := bs <- read_bytes n ;; ret (be_to_Z bs).

(** Two's complement reading of a [width]-bit pattern. *)
Definition to_signed (width z : Z) : Z :=
  if (z <? 2 ^ (width - 1))%Z then z else (z - 2 ^ width)%Z.

Definition sint_le (n : nat) : reader Z :=
  z <- uint_le n ;; ret (to_signed (8 * Z.of_nat n) z).

(** The IEEE 754 value of a bit pattern with [ebits] exponent bits and
    [fbits] fraction bits. *)
Definition float_of_bits (ebits fbits bits : Z) : float :=
  let f := (bits mod 2 ^ fbits)%Z in
  let e := ((bits / 2 ^ fbits) mod 2 ^ ebits)%Z in
  let s := (bits / 2 ^ (fbits + ebits))%Z in
  let bias := (2 ^ (ebits - 1) - 1)%Z in
  let magnitude :=
    if (e =? 2 ^ ebits - 1)%Z then (if (f =? 0)%Z then infinity else nan)
    else if (e =? 0)%Z
         then Z.ldexp (PrimFloat.of_uint63 (Uint63.of_Z f)) (1 - bias - fbits)
         else Z.ldexp (PrimFloat.of_uint63 (Uint63.of_Z (2 ^ fbits + f)))
                (e - bias - fbits) in
  if (s =? 1)%Z then PrimFloat.opp magnitude else magnitude.

Definition when {A : Type} (c : bool) (r : reader A) : reader (option A) :=
  if c then (a <- r ;; ret (Some a)) else ret None.

(** Modelled from the spec: the "declared width" of a scalar, from the
    width code of the type info (1, 2, 3, 4 for 8, 16, 32, 64 bits). *)
Definition width_of (tyle : Z) : reader nat :=
  if (tyle =? 1)%Z then ret 1
  else if (tyle =? 2)%Z then ret 2
  else if (tyle =? 3)%Z then ret 4
  else if (tyle =? 4)%Z then ret 8
  else fail ValidationError.

(** Modelled from the spec: "string items carry an explicit length"; a
    16-bit length and that many bytes, terminator included. *)
Definition sized_string : reader value :=
  n <- uint_le 2 ;;
  d <- read_bytes (Z.to_nat n) ;;
  ret (VSizedString (mkSizedString n d)).

(** Modelled from the spec: a float item of 32 or 64 bits. *)
Definition float_item (tyle : Z) : reader value :=
  if (tyle =? 3)%Z then (z <- uint_le 4 ;; ret (VFloat (float_of_bits 8 23 z)))
  else if (tyle =? 4)%Z then (z <- uint_le 8 ;; ret (VFloat (float_of_bits 11 52 z)))
  else fail ValidationError.

(** Modelled from the spec: [PayloadItem.from_io] of the generated module
    [dltpy.gen.payload_item], "one type-info tag followed by its value
    according to the tag's declared kind (string/uint/sint/float/bool) and
    declared width", laid out as the DLT protocol does: a 32-bit
    little-endian type info whose bits 0-3 give the width code, bit 4 bool,
    bit 5 signed, bit 6 unsigned, bit 7 float and bit 9 string.  An
    attribute is set exactly when its bit is. *)
Definition payload_item : reader PayloadItem :=
  info <- uint_le 4 ;;
  let tyle := Z.land info 15 in
  s <- when (Z.testbit info 9) sized_string ;;
  u <- when (Z.testbit info 6)
         (n <- width_of tyle ;; z <- uint_le n ;; ret (VInt z)) ;;
  i <- when (Z.testbit info 5)
         (n <- width_of tyle ;; z <- sint_le n ;; ret (VInt z)) ;;
  f <- when (Z.testbit info 7) (float_item tyle) ;;
  b <- when (Z.testbit info 4) (z <- uint_le 1 ;; ret (VInt z)) ;;
  ret (mkPayloadItem (Z.testbit info 9) s u i f b).

(** [payload_item] as [parse_payload] calls it. *)
Definition payload_item_from_io (pl : bytes) (p : nat) : result (PayloadItem * nat) :=
  match payload_item pl p with
  | (Ok item, p') => Ok (item, p')
  | (Raise e, _) => Raise e
  end.

(** Modelled from the spec: the "optional extended header with 4-byte app
    id, 4-byte context id, verbosity bit, message type/subtype, argument
    count"; the verbosity bit is bit 0 of the first byte. *)
Definition extended_header : reader ExtendedHeader :=
  msin <- uint_be 1 ;;
  noar <- uint_be 1 ;;
  apid <- read_bytes 4 ;;
  ctid <- read_bytes 4 ;;
  ret (mkExtendedHeader apid ctid (Z.testbit msin 0)).

(** Modelled from the spec: [StoredMessage.from_io] of the generated module
    [dltpy.gen.stored_message], "storage header with 4-byte ASCII signature
    + seconds + sub-second timestamp; standard header with
    flags/length/counter and optional fields; optional extended header;
    payload", laid out as the DLT protocol does.  The length field counts
    the standard header, the extended header and the payload; "record
    length smaller than the header size itself" is rejected. *)
Definition stored_message : reader Raw :=
  magic <- read_bytes 4 ;;
  if negb (bytes_eqb magic DltFile.DLT_SIGNATURE) then fail ValidationError
  else
    sec <- uint_le 4 ;;
    msec <- sint_le 4 ;;
    ecu <- read_bytes 4 ;;
    htyp <- uint_be 1 ;;
    mcnt <- uint_be 1 ;;
    total <- uint_be 2 ;;
    weid <- when (Z.testbit htyp 2) (read_bytes 4) ;;
    wsid <- when (Z.testbit htyp 3) (uint_be 4) ;;
    wtms <- when (Z.testbit htyp 4) (uint_be 4) ;;
    ehdr <- when (Z.testbit htyp 0) extended_header ;;
    let header_size :=
      (4 + (if Z.testbit htyp 2 then 4 else 0) + (if Z.testbit htyp 3 then 4 else 0)
       + (if Z.testbit htyp 4 then 4 else 0) + (if Z.testbit htyp 0 then 10 else 0))%Z in
    if (total <? header_size)%Z then fail ValidationError
    else
      pl <- read_bytes (Z.to_nat (total - header_size)) ;;
      fun b p =>
        (Ok (mkRaw ehdr (mkBasicHeader wtms) (mkStorageHeader sec msec) pl
               (slice b (p - Z.to_nat total) p)), p).

(** Modelled from the spec: the native reader of
    [dltpy.native.native_dltreader] (sections 4.2 and 4.7): it owns the
    buffer of bytes received so far; [read] succeeds once a whole record
    stands at the head of the buffer, [consume_message] releases that
    record, and a fill adds bytes at the end. *)
Record native : Type := mkNative {
  buffer : bytes;
  head : option (Raw * nat)
}.

(** Modelled from the spec: [read], true once a whole record stands at the
    head of the buffer. *)
Definition native_read (r : native) : bool * native :=
  match stored_message (buffer r) 0 with
  | (Ok raw, n) => (true, mkNative (buffer r) (Some (raw, n)))
  | (Raise _, _) => (false, mkNative (buffer r) None)
  end.

(** Modelled from the spec: the "unused buffer capacity" offered to a
    fill. *)
Definition native_get_buffer (r : native) : nat := 4096.

(** Modelled from the spec: a fill adds the bytes read to the valid
    region. *)
Definition native_update_buffer (r : native) (chunk : bytes) : native :=
  mkNative (buffer r ++ chunk) (head r).

(** Modelled from the spec: "consume exactly [record_length] bytes from
    the buffer". *)
Definition native_consume_message (r : native) : native :=
  match head r with
  | Some (_, n) => mkNative (skipn n (buffer r)) None
  | None => r
  end.

(** What the accessors answer when no record is at the head. *)
Definition empty_raw : Raw :=
  mkRaw None (mkBasicHeader None) (mkStorageHeader 0 0) [] [].

(** Modelled from the spec: the headers and payload of the record at the
    head of the buffer. *)
Definition native_current (r : native) : Raw :=
  match head r with
  | Some (raw, _) => raw
  | None => empty_raw
  end.

(** A byte source that delivers the given chunks, one per call, then
    reports the end of the input. *)
Definition chunks_readinto (fd : list bytes) (n : nat) : bytes * list bytes :=
  match fd with
  | [] => ([], [])
  | c :: rest =>
    if List.length c <=? n then (c, rest) else (firstn n c, skipn n c :: rest)
  end.

(** [DltReader.__iter__] over the native reader above and a chunked
    source. *)
Definition stream_iter (fuel : nat) (fd : list bytes) : list DltMessage * ending :=
  DltReader.iter native_read native_get_buffer chunks_readinto native_update_buffer
    native_consume_message native_current fuel
    (DltReader.mkState (mkNative [] None) fd world0).

(** [DltFile.__iter__] over [stored_message], with fuel for one turn of
    the loop per byte of the file and two more. *)
Definition file_iter (filters : option (list filter_pair)) (b : bytes)
  : list DltMessage * ending * DltFile.state :=
  DltFile.iter stored_message filters false (S (S (List.length b))) (DltFile.opened b).

End Wire.


(* ===================================================================== *)
(** * Sample inputs                                                       *)
(* ===================================================================== *)

Module Samples.

Definition hex_value (c : ascii) : N :=
  let n := N_of_ascii c in
  if (n <? 58)%N then (n - 48)%N else (n - 87)%N.

(** [bytes.fromhex] on lower-case digits. *)
Fixpoint fromhex (s : string) : bytes :=
  match s with
  | String a (String b r) =>
    match Byte.of_N (16 * hex_value a + hex_value b) with
    | Some x => x :: fromhex r
    | None => fromhex r
    end
  | _ => []
  end.

(** The payload of one string item, "hi" and its terminator. *)
Definition payload_hi : bytes := fromhex "000200000300686900".

(** A verbose record of application "APP1", context "CTX1", stored at
    5 s + 250 ms, device timestamp 10000 ticks, payload [payload_hi]. *)
Definition verbose_record : bytes :=
  fromhex "444c540105000000fa0000004543553131" ++ fromhex "00001b00002710"
  ++ fromhex "41014150503143545831" ++ payload_hi.

(** A non-verbose record of application "APP2", context "CTX2", with no
    device timestamp and an empty payload. *)
Definition quiet_record : bytes :=
  fromhex "444c540106000000000000004543553121" ++ fromhex "00000e"
  ++ fromhex "40004150503243545832".

(** A verbose record of "APP1"/"CTX1" whose device timestamp is 0 ticks. *)
Definition boot_record : bytes :=
  fromhex "444c540105000000fa0000004543553131" ++ fromhex "00001200000000"
  ++ fromhex "41004150503143545831".

(** Bytes that are no record: they hold a signature at offset 2 that no
    record follows. *)
Definition garbage : bytes := fromhex "ffee444c5401ff".

(** Bytes that hold a whole record header at offset 1, declaring a
    payload of 6 bytes of which none is there. *)
Definition garbage_with_record : bytes :=
  fromhex "ff" ++ fromhex "444c5401070000000000000045435531" ++ fromhex "2000000a".

(** What [StoredMessage.from_io] hands over for [verbose_record]. *)
Definition verbose_raw : Raw :=
  mkRaw (Some (mkExtendedHeader (fromhex "41505031") (fromhex "43545831") true))
    (mkBasicHeader (Some 10000%Z)) (mkStorageHeader 5 250) payload_hi
    (skipn 16 verbose_record).

(** The message [loadn] builds from [verbose_raw]. *)
Definition verbose_message : DltMessage :=
  mkDltMessage (Some (str_of_string "APP1")) (Some (str_of_string "CTX1"))
    (Some 1%float) 5.25%float (Some true) payload_hi None (skipn 16 verbose_record).

(** A payload of an unsigned 7 followed by the string "hi" declared with
    length 2, that is without a terminator. *)
Definition payload_unterminated : bytes :=
  fromhex "4100000007" ++ fromhex "0002000002006869".

(** A payload of an unsigned 7 followed by a string of declared length 0. *)
Definition payload_empty_string : bytes :=
  fromhex "4100000007" ++ fromhex "000200000000".

(** A payload of an unsigned 7 followed by an item whose type info has
    none of the string, unsigned, signed, float and bool bits. *)
Definition payload_unknown_tag : bytes :=
  fromhex "4100000007" ++ fromhex "00040000ffff".

(** A payload of an unsigned 7 followed by the string "hi" and its
    terminator. *)
Definition payload_terminated : bytes := fromhex "4100000007" ++ payload_hi.

(** The items of these payloads, as [PayloadItem.from_io] returns them. *)
Definition item_uint7 : PayloadItem :=
  mkPayloadItem false None (Some (VInt 7)) None None None.

Definition item_string (d : bytes) : PayloadItem :=
  mkPayloadItem true (Some (VSizedString (mkSizedString (Z.of_nat (List.length d)) d)))
    None None None None.

Definition item_unknown : PayloadItem :=
  mkPayloadItem false None None None None None.

(** A message carrying the payload [pl], not yet decoded. *)
Definition message_with (pl : bytes) : DltMessage :=
  mkDltMessage None None None PrimFloat.zero None pl None [].

End Samples.

(* ===================================================================== *)
(** * Vocabulary of the properties                                        *)
(* ===================================================================== *)

Module Spec.

(** A field of a filter pair accepts an id of a message: the field is a
    wildcard, or the message has this very id. *)
Definition field_accepts (wanted : option str) (mine : option str) : Prop :=
  wanted = None \/ exists s, wanted = Some s /\ mine = Some s.

(** A filter pair accepts a message on both fields. *)
Definition pair_accepts (m : DltMessage) (f : filter_pair) : Prop :=
  field_accepts (fst f) (app m) /\ field_accepts (snd f) (ctx m).

(** The id a header field carries once its NUL padding is removed; [None]
    without an extended header. *)
Definition nul_stripped_id (field : ExtendedHeader -> bytes) (raw : Raw)
  : option (result str) :=
  match get_extended raw with
  | Some e => Some (decode (strip_nul (field e)))
  | None => None
  end.

(** The first offset after [p] at which the signature stands is [q]. *)
Definition next_signature (b : bytes) (p q : nat) : Prop :=
  p < q /\ DltFile.signature_at b q = true
  /\ forall j, p < j < q -> DltFile.signature_at b j = false.

End Spec.

(* ===================================================================== *)
(** * The [human_friendly_payload] property                               *)
(* ===================================================================== *)

Module Text.

(** The characters [str.strip()] removes: those for which [str.isspace]
    holds. *)
Definition is_space (c : N) : bool :=
  (((9 <=? c) && (c <=? 13)) || ((28 <=? c) && (c <=? 32))
   || (c =? 133) || (c =? 160) || (c =? 5760)
   || ((8192 <=? c) && (c <=? 8202))
   || (c =? 8232) || (c =? 8233) || (c =? 8239) || (c =? 8287) || (c =? 12288))%N.

(** [s.lstrip()] *)
Fixpoint lstrip (s : str) : str :=
  match s with
  | [] => []
  | c :: r => if is_space c then lstrip r else s
  end.

(** [s.rstrip()] *)
Definition rstrip (s : str) : str := rev (lstrip (rev s)).

(** [s.strip()] *)
Definition strip (s : str) : str := rstrip (lstrip s).

(** [if len(pl) > 1 and pl[-1] == '\0': pl = pl[:-1]] *)
Definition drop_final_nul (s : str) : str :=
  if (1 <? List.length s) && (last s 1 =? 0)%N then removelast s else s.

End Text.

(** What [human_friendly_payload] returns: the payload as it is (a list
    or [None]), the single [bytes] item when it is not UTF-8, or the text
    of the single item. *)
Inductive friendly : Type :=
| FPayload (pl : option (list value))
| FBytes (b : bytes)
| FText (s : str).

Section HumanFriendly.

Variable from_io : bytes -> nat -> result (PayloadItem * nat).

(** [human_friendly_payload] *)
Definition human_friendly_payload (m : DltMessage) (w : World)
  : option (result friendly * DltMessage * World) :=
  match payload from_io m w with
  | None => None
  | Some (Raise e, m', w') => Some (Raise e, m', w')
  | Some (Ok pl, m', w') =>
    match pl with
    | Some [VBytes b] =>
      match decode b with
      | Ok s => Some (Ok (FText (Text.strip (Text.drop_final_nul s))), m', w')
      | Raise UnicodeDecodeError => Some (Ok (FBytes b), m', w')
      | Raise e => Some (Raise e, m', w')
      end
    | _ => Some (Ok (FPayload pl), m', w')
    end
  end.

End HumanFriendly.

Module MoreSamples.

(** A payload of one string item, " hi " followed by two NUL bytes. *)
Definition payload_padded : bytes :=
  Samples.fromhex "00020000" ++ Samples.fromhex "0600" ++ Samples.fromhex "206869200000".


(** A file of three records back to back: verbose, non-verbose, verbose. *)
Definition three_records : bytes :=
  Samples.verbose_record ++ Samples.quiet_record ++ Samples.boot_record.

(** The messages of [Samples.quiet_record] and [Samples.boot_record]. *)
Definition quiet_message : DltMessage :=
  mkDltMessage (Some (str_of_string "APP2")) (Some (str_of_string "CTX2"))
    None 6%float (Some false) [] None (skipn 16 Samples.quiet_record).

Definition boot_message : DltMessage :=
  mkDltMessage (Some (str_of_string "APP1")) (Some (str_of_string "CTX1"))
    None 5.25%float (Some true) [] None (skipn 16 Samples.boot_record).

(** A verbose record whose application id is the bytes 41 ff 00 00, which
    are not UTF-8. *)
Definition bad_id_record : bytes :=
  Samples.fromhex "444c540105000000fa0000004543553121" ++ Samples.fromhex "00000e"
  ++ Samples.fromhex "410041ff000043545831".

(** A record cut short: a file that ends inside the payload. *)
Definition truncated_file : bytes :=
  Samples.verbose_record ++ firstn 40 Samples.verbose_record.

End MoreSamples.

(** What an outcome [r] of [parse_payload] says about the payload: the
    items up to [pos] decoded into [ret], and then the payload ended, or
    the item at [pos] had none of the five attributes, or the item parser
    or the exposure of the item at [pos] raised. *)
Definition explains (from_io : bytes -> nat -> result (PayloadItem * nat))
           (pl : bytes) (r : result (option (list value)))
           (pos : nat) (ret : list value) : Prop :=
  match r with
  | Ok (Some vals) => vals = ret /\ List.length pl <= pos
  | Ok None =>
    pos < List.length pl
    /\ exists item pos', from_io pl pos = Ok (item, pos') /\ get_value item = None
  | Raise e =>
    pos < List.length pl
    /\ (from_io pl pos = Raise e
        \/ exists item pos' v,
             from_io pl pos = Ok (item, pos') /\ get_value item = Some v
             /\ expose item v = Raise e)
  end.

(** The record parser moves forward in the file [b]: decoding at an offset
    inside it, with success or not, leaves the file further on and not
    beyond its end. *)
Definition moves_forward (from_io : bytes -> nat -> result Raw * nat) (b : bytes)
  : Prop :=
  forall p r p', p < List.length b -> from_io b p = (r, p') ->
                 p < p' <= List.length b.

(** The file from [start] on is made of records that decode one after the
    other up to its end, and [msgs] are their messages. *)
Inductive records_at (from_io : bytes -> nat -> result Raw * nat) (b : bytes)
  : nat -> list DltMessage -> Prop :=
| records_end : records_at from_io b (List.length b) []
| records_next start raw stop msg msgs :
    start < List.length b ->
    from_io b start = (Ok raw, stop) ->
    DltMessage.loadn raw None = Ok msg ->
    records_at from_io b stop msgs ->
    records_at from_io b start (msg :: msgs).

(* ===================================================================== *)
(** * Properties of [DltMessage]: [match] and [loadn]                     *)
(* ===================================================================== *)

Example decode_ascii :
  decode (Samples.fromhex "41505031") = Ok (str_of_string "APP1").
Proof. reflexivity. Qed.

Example decode_two_byte_sequence : decode (Samples.fromhex "c3a9") = Ok [233%N].
Proof. reflexivity. Qed.

Example decode_rejects_stray_byte :
  decode (Samples.fromhex "41ff") = Raise UnicodeDecodeError.
Proof. reflexivity. Qed.

Example strip_nul_removes_padding :
  strip_nul (Samples.fromhex "41420000") = Samples.fromhex "4142".
Proof. reflexivity. Qed.

Lemma str_eqb_eq (a b : str) : str_eqb a b = true <-> a = b.
Proof.
  unfold str_eqb. destruct (list_eq_dec N.eq_dec a b); split; congruence.
Qed.

Lemma bytes_eqb_eq (a b : bytes) : bytes_eqb a b = true <-> a = b.
Proof.
  unfold bytes_eqb. destruct (list_eq_dec Byte.byte_eq_dec a b); split; congruence.
Qed.

Lemma attr_eq_spec (mine : option str) (wanted : str) :
  DltMessage.attr_eq mine wanted = true <-> mine = Some wanted.
Proof.
  destruct mine as [s|]; simpl.
  - rewrite str_eqb_eq. split; congruence.
  - split; discriminate.
Qed.

Lemma field_test_spec (wanted mine : option str) :
  match wanted with
  | None => true
  | Some a => DltMessage.attr_eq mine a
  end = true <-> Spec.field_accepts wanted mine.
Proof.
  unfold Spec.field_accepts. destruct wanted as [a|].
  - rewrite attr_eq_spec. split.
    + intros ->. right. exists a. split; reflexivity.
    + intros [H | (s & Hs & Hm)]; [discriminate | congruence].
  - split; [intros _; left; reflexivity | reflexivity].
Qed.

Lemma pair_matches_spec (m : DltMessage) (f : filter_pair) :
  DltMessage.pair_matches m f = true <-> Spec.pair_accepts m f.
Proof.
  destruct f as [fa fc]. unfold DltMessage.pair_matches, Spec.pair_accepts.
  rewrite andb_true_iff, !field_test_spec. reflexivity.
Qed.

Lemma match_exists (m : DltMessage) (filters : list filter_pair) :
  DltMessage.match_ m filters = true
  <-> exists f, In f filters /\ Spec.pair_accepts m f.
Proof.
  induction filters as [|f rest IH]; simpl.
  - split; [discriminate | intros (f & [] & _)].
  - destruct (DltMessage.pair_matches m f) eqn:E.
    + split; [intros _ | reflexivity].
      exists f. split; [left; reflexivity | apply pair_matches_spec, E].
    + rewrite IH. split.
      * intros (g & Hin & Hg). exists g. split; [right; exact Hin | exact Hg].
      * intros (g & [-> | Hin] & Hg).
        -- apply pair_matches_spec in Hg. congruence.
        -- exists g. split; assumption.
Qed.

Lemma loadn_ids (raw : Raw) (raw_data : option bytes) (m : DltMessage) :
  DltMessage.loadn raw raw_data = Ok m ->
  Spec.nul_stripped_id ehdr_app raw = option_map Ok (app m)
  /\ Spec.nul_stripped_id ehdr_ctx raw = option_map Ok (ctx m).
Proof.
  unfold DltMessage.loadn, Spec.nul_stripped_id.
  destruct (get_extended raw) as [e|]; simpl.
  - destruct (decode (strip_nul (ehdr_app e))) as [a|]; simpl; [|discriminate].
    destruct (decode (strip_nul (ehdr_ctx e))) as [c|]; simpl; [|discriminate].
    intros H. injection H as <-. simpl. split; reflexivity.
  - intros H. injection H as <-. simpl. split; reflexivity.
Qed.

(** C8.  The ids of a loaded message are the NUL-stripped ids of its
    extended header; a filter pair matches the message iff each of its two
    fields is a wildcard ([None]) or equal to the corresponding id of the
    message; a filter list matches iff one of its pairs matches on both
    fields. *)
Theorem match_pairs_on_stripped_ids
        (raw : Raw) (raw_data : option bytes) (m : DltMessage)
        (filters : list filter_pair) :
  DltMessage.loadn raw raw_data = Ok m ->
  (Spec.nul_stripped_id ehdr_app raw = option_map Ok (app m)
   /\ Spec.nul_stripped_id ehdr_ctx raw = option_map Ok (ctx m))
  /\ (forall fa fc,
         DltMessage.pair_matches m (fa, fc) = true
         <-> Spec.field_accepts fa (app m) /\ Spec.field_accepts fc (ctx m))
  /\ (DltMessage.match_ m filters = true
      <-> exists fa fc, In (fa, fc) filters
                        /\ Spec.field_accepts fa (app m)
                        /\ Spec.field_accepts fc (ctx m)).
Proof.
  intros Hload. split; [exact (loadn_ids _ _ Hload)|]. split.
  - intros fa fc. apply (pair_matches_spec m (fa, fc)).
  - rewrite match_exists. split.
    + intros ([fa fc] & Hin & Ha & Hc). exists fa, fc. auto.
    + intros (fa & fc & Hin & Ha & Hc). exists (fa, fc). split; [exact Hin|].
      split; assumption.
Qed.

Lemma match_pairs_on_stripped_ids_witness :
  DltMessage.loadn Samples.verbose_raw None = Ok Samples.verbose_message
  /\ DltMessage.match_ Samples.verbose_message
       [(Some (str_of_string "APP9"), None); (Some (str_of_string "APP1"), None)]
     = true.
Proof.
  split; [vm_compute; reflexivity|].
  apply (@match_pairs_on_stripped_ids Samples.verbose_raw None Samples.verbose_message
           [(Some (str_of_string "APP9"), None); (Some (str_of_string "APP1"), None)]).
  - vm_compute; reflexivity.
  - exists (Some (str_of_string "APP1")), None. split; [right; left; reflexivity|].
    split; [right | left; reflexivity].
    exists (str_of_string "APP1"). split; reflexivity.
Defined.

(** Matching is case-sensitive. *)
Example match_is_case_sensitive :
  DltMessage.match_ Samples.verbose_message [(Some (str_of_string "app1"), None)] = false.
Proof. vm_compute; reflexivity. Qed.

Example verbose_record_parses :
  Wire.stored_message Samples.verbose_record 0 = (Ok Samples.verbose_raw, 43).
Proof. vm_compute; reflexivity. Qed.


Example loadn_of_verbose_record :
  DltMessage.loadn Samples.verbose_raw None = Ok Samples.verbose_message
  /\ date Samples.verbose_message = 5.25%float
  /\ ts Samples.verbose_message = Some 1%float.
Proof. split; [vm_compute; reflexivity | split; reflexivity]. Qed.

(** C9.  A record whose standard header carries the device timestamp 0 is
    loaded with [ts = None]: the timestamp is present and is not scaled. *)
Theorem zero_timestamp_is_dropped :
  exists raw m,
    Wire.stored_message Samples.boot_record 0 = (Ok raw, 34)
    /\ tmsp (get_basic raw) = Some 0%Z
    /\ DltMessage.loadn raw None = Ok m
    /\ ts m = None.
Proof.
  eexists. eexists. split; [vm_compute; reflexivity|].
  split; [reflexivity|]. split; [vm_compute; reflexivity | reflexivity].
Qed.

(* ===================================================================== *)
(** * Properties of [parse_payload] and of the [payload] property         *)
(* ===================================================================== *)

Section PayloadProperties.

Variable from_io : bytes -> nat -> result (PayloadItem * nat).

Local Abbreviation parse_loop := (parse_loop from_io).
Local Abbreviation parse_payload := (parse_payload from_io).
Local Abbreviation decodes_to := (decodes_to from_io).

(** One turn of the loop over an item that decodes. *)
Lemma parse_loop_step fuel pl pos ret w item pos' v v' :
  pos < List.length pl ->
  from_io pl pos = Ok (item, pos') ->
  get_value item = Some v ->
  expose item v = Ok v' ->
  parse_loop (S fuel) pl pos ret w = parse_loop fuel pl pos' (ret ++ [v']) w.
Proof.
  intros Hlt Hio Hv Hx. simpl.
  apply Nat.ltb_lt in Hlt. rewrite Hlt, Hio, Hv, Hx. reflexivity.
Qed.

(** The loop only appends to what it has decoded so far. *)
Lemma parse_loop_extends fuel : forall pl pos ret w vals w',
  parse_loop fuel pl pos ret w = Some (Ok (Some vals), w') ->
  exists rest, vals = ret ++ rest.
Proof.
  induction fuel as [|fuel IH]; intros pl pos ret w vals w'; simpl; [discriminate|].
  destruct (pos <? List.length pl).
  - destruct (from_io pl pos) as [[item pos']|e]; [|discriminate].
    destruct (get_value item) as [v|]; [|discriminate].
    destruct (expose item v) as [v'|e]; [|discriminate].
    intros H. apply IH in H. destruct H as [rest ->].
    exists (v' :: rest). rewrite <- app_assoc. reflexivity.
  - intros H. injection H as <- _. exists []. rewrite app_nil_r. reflexivity.
Qed.

(** The loop neither logs nor counts while items decode, and counts no
    call at all. *)
Lemma parse_loop_parse_calls fuel : forall pl pos ret w r w',
  parse_loop fuel pl pos ret w = Some (r, w') -> parse_calls w' = parse_calls w.
Proof.
  induction fuel as [|fuel IH]; intros pl pos ret w r w'; simpl; [discriminate|].
  destruct (pos <? List.length pl).
  - destruct (from_io pl pos) as [[item pos']|e].
    + destruct (get_value item) as [v|].
      * destruct (expose item v) as [v'|e]; [apply IH|].
        intros H. injection H as _ <-. reflexivity.
      * intros H. injection H as _ <-. reflexivity.
    + intros H. injection H as _ <-. reflexivity.
  - intros H. injection H as _ <-. reflexivity.
Qed.

(** Reaching [pos] takes at most [pos] turns of the loop. *)
Lemma decodes_to_run pl pos items ret :
  decodes_to pl pos items ret ->
  exists k, k <= pos
            /\ forall n w, parse_loop (k + n) pl 0 [] w = parse_loop n pl pos ret w.
Proof.
  induction 1 as [|pos items ret item pos' v v' _ (k & Hk & IH) Hlt Hio Hadv Hv Hx].
  - exists 0. split; [lia | reflexivity].
  - exists (S k). split; [lia|]. intros n w.
    replace (S k + n) with (k + S n) by lia.
    rewrite IH. apply parse_loop_step with (item := item) (v := v); assumption.
Qed.

(** [parse_payload] from an item it reaches. *)
Lemma parse_payload_from pl pos items ret w :
  decodes_to pl pos items ret ->
  pos < List.length pl ->
  exists n, parse_payload pl w = parse_loop (S n) pl pos ret (count_parse w).
Proof.
  intros Hd Hlt. destruct (decodes_to_run Hd) as (k & Hk & Hrun).
  exists (List.length pl - k). unfold parse_payload.
  replace (S (List.length pl)) with (k + S (List.length pl - k)) by lia.
  apply Hrun.
Qed.

Lemma string_item_value item s :
  attr_str item = Some (VSizedString s) ->
  plt_strg item = true ->
  get_value item = Some (VSizedString s)
  /\ expose item (VSizedString s) = strip_terminator (VBytes (data s)).
Proof.
  intros Hs Hp. unfold get_value, expose. rewrite Hs, Hp. split; reflexivity.
Qed.

(** C5.  For a string item that [parse_payload] reaches: whenever the
    payload decodes, the value exposed for the item is its bytes without
    the final NUL, which they do end with; and when the bytes do not end
    with NUL, [parse_payload] returns nothing and raises: the
    [AssertionError] of its terminator check when the bytes are not
    empty. *)
Theorem string_item_is_nul_stripped pl pos items ret item pos' s :
  decodes_to pl pos items ret ->
  pos < List.length pl ->
  from_io pl pos = Ok (item, pos') ->
  plt_strg item = true ->
  attr_str item = Some (VSizedString s) ->
  (forall w vals w',
      parse_payload pl w = Some (Ok (Some vals), w') ->
      exists v, data s = v ++ [Byte.x00]
                /\ nth_error vals (List.length ret) = Some (VBytes v))
  /\ ((forall v, data s <> v ++ [Byte.x00]) ->
      forall w, exists e,
        parse_payload pl w = Some (Raise e, count_parse w)
        /\ (data s <> [] -> e = AssertionError)).
Proof.
  intros Hd Hlt Hio Hp Hs.
  destruct (string_item_value _ Hs Hp) as [Hv Hx].
  assert (Hlt' := proj2 (Nat.ltb_lt _ _) Hlt).
  split.
  - intros w vals w' Hrun.
    destruct (parse_payload_from w Hd Hlt) as [n Hn]. rewrite Hn in Hrun.
    simpl in Hrun. rewrite Hlt', Hio, Hv, Hx in Hrun. simpl in Hrun.
    destruct (data s) as [|c d] eqn:Ed; [discriminate|].
    destruct (Byte.eqb (last (c :: d) Byte.x00) Byte.x00) eqn:El; [|discriminate].
    apply Byte.byte_dec_bl in El.
    apply parse_loop_extends in Hrun. destruct Hrun as [rest ->].
    exists (removelast (c :: d)). split.
    + assert (Hl : c :: d <> []) by discriminate.
      apply (app_removelast_last Byte.x00) in Hl. rewrite El in Hl. exact Hl.
    + rewrite <- app_assoc. rewrite nth_error_app2 by lia.
      rewrite Nat.sub_diag. reflexivity.
  - intros Hnul w.
    destruct (parse_payload_from w Hd Hlt) as [n Hn]. rewrite Hn.
    simpl. rewrite Hlt', Hio, Hv, Hx. simpl.
    destruct (data s) as [|c d] eqn:Ed.
    + exists IndexError. split; [reflexivity | intros Hc; contradiction].
    + destruct (Byte.eqb (last (c :: d) Byte.x00) Byte.x00) eqn:El.
      * apply Byte.byte_dec_bl in El. exfalso.
        apply (Hnul (removelast (c :: d))).
        assert (Hl : c :: d <> []) by discriminate.
        apply (app_removelast_last Byte.x00) in Hl. rewrite El in Hl. exact Hl.
      * exists AssertionError. split; reflexivity.
Qed.

(** C6.  When [parse_payload] reaches an item that has none of the five
    kinds, it logs the offset of that item and returns [None], whatever it
    had decoded before; the [payload] property then returns [None] too. *)
Theorem unknown_tag_aborts_payload pl pos items ret item pos' :
  decodes_to pl pos items ret ->
  pos < List.length pl ->
  from_io pl pos = Ok (item, pos') ->
  attr_str item = None -> attr_uint item = None -> attr_sint item = None ->
  attr_float item = None -> attr_bool item = None ->
  forall w,
    parse_payload pl w
    = Some (Ok None, emit (LogCantParsePayload (hex pl) pos) (count_parse w))
    /\ forall m, raw_payload m = pl -> payload_cache m = None ->
         payload from_io m w
         = Some (Ok None, m, emit (LogCantParsePayload (hex pl) pos) (count_parse w)).
Proof.
  intros Hd Hlt Hio H1 H2 H3 H4 H5 w.
  assert (Hv : get_value item = None).
  { unfold get_value. rewrite H1, H2, H3, H4. exact H5. }
  assert (Hrun : parse_payload pl w
                 = Some (Ok None, emit (LogCantParsePayload (hex pl) pos) (count_parse w))).
  { destruct (parse_payload_from w Hd Hlt) as [n Hn]. rewrite Hn. simpl.
    apply Nat.ltb_lt in Hlt. rewrite Hlt, Hio, Hv. reflexivity. }
  split; [exact Hrun|].
  intros m Hm Hc. unfold payload. rewrite Hc, Hm, Hrun.
  destruct m; simpl in *. subst. reflexivity.
Qed.

(** C10.  When [parse_payload] reaches a string item whose bytes are
    empty, it raises [IndexError], and so does the [payload] property,
    which caches nothing. *)
Theorem empty_string_item_raises pl pos items ret item pos' s :
  decodes_to pl pos items ret ->
  pos < List.length pl ->
  from_io pl pos = Ok (item, pos') ->
  plt_strg item = true ->
  attr_str item = Some (VSizedString s) ->
  data s = [] ->
  forall w,
    parse_payload pl w = Some (Raise IndexError, count_parse w)
    /\ forall m, raw_payload m = pl -> payload_cache m = None ->
         payload from_io m w = Some (Raise IndexError, m, count_parse w).
Proof.
  intros Hd Hlt Hio Hp Hs He w.
  destruct (string_item_value _ Hs Hp) as [Hv Hx].
  assert (Hrun : parse_payload pl w = Some (Raise IndexError, count_parse w)).
  { destruct (parse_payload_from w Hd Hlt) as [n Hn]. rewrite Hn. simpl.
    apply Nat.ltb_lt in Hlt. rewrite Hlt, Hio, Hv, Hx, He. reflexivity. }
  split; [exact Hrun|].
  intros m Hm Hc. unfold payload. rewrite Hc, Hm, Hrun. reflexivity.
Qed.

(** C7, as the code has it.  When an access of [payload] returns a
    sequence, the next access returns the same sequence and leaves the
    world as it was: no parse, nothing logged; the first access made at
    most one call of [parse_payload].  When an access raises, the message
    is unchanged and its cache is still empty. *)
Theorem payload_is_memoized_on_success m w r m1 w1 :
  payload from_io m w = Some (r, m1, w1) ->
  (forall vals, r = Ok (Some vals) ->
     payload from_io m1 w1 = Some (Ok (Some vals), m1, w1)
     /\ parse_calls w1 <= S (parse_calls w))
  /\ (forall e, r = Raise e ->
        m1 = m /\ payload_cache m1 = None /\ parse_calls w1 = S (parse_calls w)).
Proof.
  unfold payload.
  destruct (payload_cache m) as [c|] eqn:Ec.
  - intros H. injection H as <- <- <-. split.
    + intros vals Hv. injection Hv as ->. rewrite Ec. split; [reflexivity | lia].
    + intros e He. discriminate.
  - destruct (parse_payload (raw_payload m) w) as [[[o|e] w']|] eqn:Ep; [| |discriminate].
    + intros H. injection H as <- <- <-. split; [|intros e He; discriminate].
      intros vals Hv. injection Hv as ->. simpl. split; [reflexivity|].
      apply parse_loop_parse_calls in Ep. simpl in Ep. lia.
    + intros H. injection H as <- <- <-. split; [intros vals Hv; discriminate|].
      intros e' _. split; [reflexivity|]. split; [exact Ec|].
      apply parse_loop_parse_calls in Ep. exact Ep.
Qed.

End PayloadProperties.

(** ** The payload properties on the wire format *)

Lemma reaches_second_item (pl : bytes) :
  Wire.payload_item_from_io pl 0 = Ok (Samples.item_uint7, 5) ->
  5 < List.length pl ->
  decodes_to Wire.payload_item_from_io pl 5 [Samples.item_uint7] [VInt 7].
Proof.
  intros Hio Hlen.
  apply (@decodes_snoc Wire.payload_item_from_io pl 0 [] [] Samples.item_uint7 5
           (VInt 7) (VInt 7)).
  - apply decodes_nil.
  - lia.
  - exact Hio.
  - lia.
  - reflexivity.
  - reflexivity.
Qed.

Lemma string_item_is_nul_stripped_witness :
  (exists v, Samples.fromhex "686900" = v ++ [Byte.x00]
             /\ nth_error [VInt 7; VBytes (Samples.fromhex "6869")] 1 = Some (VBytes v))
  /\ exists e,
       parse_payload Wire.payload_item_from_io Samples.payload_unterminated world0
       = Some (Raise e, count_parse world0)
       /\ (Samples.fromhex "6869" <> [] -> e = AssertionError).
Proof.
  split.
  - apply (@string_item_is_nul_stripped Wire.payload_item_from_io
             Samples.payload_terminated 5 [Samples.item_uint7] [VInt 7]
             (Samples.item_string (Samples.fromhex "686900")) 14
             (mkSizedString 3 (Samples.fromhex "686900")))
      with (w := world0) (w' := count_parse world0).
    + apply reaches_second_item; [vm_compute; reflexivity | vm_compute; lia].
    + vm_compute; lia.
    + vm_compute; reflexivity.
    + reflexivity.
    + reflexivity.
    + vm_compute; reflexivity.
  - apply (@string_item_is_nul_stripped Wire.payload_item_from_io
             Samples.payload_unterminated 5 [Samples.item_uint7] [VInt 7]
             (Samples.item_string (Samples.fromhex "6869")) 13
             (mkSizedString 2 (Samples.fromhex "6869"))).
    + apply reaches_second_item; [vm_compute; reflexivity | vm_compute; lia].
    + vm_compute; lia.
    + vm_compute; reflexivity.
    + reflexivity.
    + reflexivity.
    + intros v Hv. apply (f_equal (@rev byte)) in Hv.
      rewrite rev_app_distr in Hv. vm_compute in Hv. discriminate.
Defined.

Lemma unknown_tag_aborts_payload_witness :
  parse_payload Wire.payload_item_from_io Samples.payload_unknown_tag world0
  = Some (Ok None,
          emit (LogCantParsePayload "410000000700040000ffff" 5) (count_parse world0))
  /\ payload Wire.payload_item_from_io
       (Samples.message_with Samples.payload_unknown_tag) world0
     = Some (Ok None, Samples.message_with Samples.payload_unknown_tag,
             emit (LogCantParsePayload "410000000700040000ffff" 5) (count_parse world0)).
Proof.
  destruct (@unknown_tag_aborts_payload Wire.payload_item_from_io
              Samples.payload_unknown_tag 5 [Samples.item_uint7] [VInt 7]
              Samples.item_unknown 9) with (w := world0) as [Hparse Hprop].
  - apply reaches_second_item; [vm_compute; reflexivity | vm_compute; lia].
  - vm_compute; lia.
  - vm_compute; reflexivity.
  - reflexivity.
  - reflexivity.
  - reflexivity.
  - reflexivity.
  - reflexivity.
  - split; [exact Hparse|].
    apply (Hprop (Samples.message_with Samples.payload_unknown_tag)); reflexivity.
Defined.

Lemma empty_string_item_raises_witness :
  parse_payload Wire.payload_item_from_io Samples.payload_empty_string world0
  = Some (Raise IndexError, count_parse world0)
  /\ payload Wire.payload_item_from_io
       (Samples.message_with Samples.payload_empty_string) world0
     = Some (Raise IndexError, Samples.message_with Samples.payload_empty_string,
             count_parse world0).
Proof.
  destruct (@empty_string_item_raises Wire.payload_item_from_io
              Samples.payload_empty_string 5 [Samples.item_uint7] [VInt 7]
              (Samples.item_string []) 11 (mkSizedString 0 []))
    with (w := world0) as [Hparse Hprop].
  - apply reaches_second_item; [vm_compute; reflexivity | vm_compute; lia].
  - vm_compute; lia.
  - vm_compute; reflexivity.
  - reflexivity.
  - reflexivity.
  - reflexivity.
  - split; [exact Hparse|].
    apply (Hprop (Samples.message_with Samples.payload_empty_string)); reflexivity.
Defined.

Lemma payload_is_memoized_on_success_witness :
  let vals := [VInt 7; VBytes (Samples.fromhex "6869")] in
  let m1 := set_payload_cache (Samples.message_with Samples.payload_terminated) (Some vals) in
  payload Wire.payload_item_from_io m1 (count_parse world0)
  = Some (Ok (Some vals), m1, count_parse world0)
  /\ parse_calls (count_parse world0) <= 1.
Proof.
  apply (proj1 (@payload_is_memoized_on_success Wire.payload_item_from_io
                  (Samples.message_with Samples.payload_terminated) world0
                  (Ok (Some [VInt 7; VBytes (Samples.fromhex "6869")]))
                  (set_payload_cache (Samples.message_with Samples.payload_terminated)
                     (Some [VInt 7; VBytes (Samples.fromhex "6869")]))
                  (count_parse world0) eq_refl)).
  reflexivity.
Defined.

(** C7 as stated fails: on a message whose payload holds an unterminated
    string, each of two accesses of [payload] raises, and the second access
    has called [parse_payload] again. *)
Lemma payload_parsed_again_after_failure :
  exists m1 w1 m2 w2,
    payload Wire.payload_item_from_io
      (Samples.message_with Samples.payload_unterminated) world0
    = Some (Raise AssertionError, m1, w1)
    /\ parse_calls w1 = 1
    /\ payload Wire.payload_item_from_io m1 w1 = Some (Raise AssertionError, m2, w2)
    /\ parse_calls w2 = 2.
Proof.
  do 4 eexists. split; [vm_compute; reflexivity|].
  split; [reflexivity|]. split; [vm_compute; reflexivity | reflexivity].
Qed.

(** A payload that fails to decode with [None] is not kept either: the
    empty cache and the failed decode are both [None]. *)
Example payload_parsed_again_after_none :
  exists m1 w1 m2 w2,
    payload Wire.payload_item_from_io
      (Samples.message_with Samples.payload_unknown_tag) world0
    = Some (Ok None, m1, w1)
    /\ payload Wire.payload_item_from_io m1 w1 = Some (Ok None, m2, w2)
    /\ parse_calls w2 = 2.
Proof.
  do 4 eexists. split; [vm_compute; reflexivity|].
  split; [vm_compute; reflexivity | reflexivity].
Qed.

(* ===================================================================== *)
(** * Properties of [DltReader]                                           *)
(* ===================================================================== *)

Section ReaderProperties.

Variable NativeReader : Type.
Variable Fd : Type.
Variable read : NativeReader -> bool * NativeReader.
Variable get_buffer : NativeReader -> nat.
Variable readinto : Fd -> nat -> bytes * Fd.
Variable update_buffer : NativeReader -> bytes -> NativeReader.
Variable consume_message : NativeReader -> NativeReader.
Variable current : NativeReader -> Raw.

Local Abbreviation get_next_message :=
  (DltReader.get_next_message read get_buffer readinto update_buffer
     consume_message current).
Local Abbreviation iter :=
  (DltReader.iter read get_buffer readinto update_buffer consume_message current).

Lemma reader_iter_unfold fuel (st : DltReader.state NativeReader Fd) :
  iter (S fuel) st
  = match get_next_message (S fuel) st with
    | None => ([], OutOfFuel)
    | Some (Raise e, _) => ([], Raised e)
    | Some (Ok None, _) => ([], Exhausted)
    | Some (Ok (Some ret), st') =>
      if negb (truthy (verbose ret)) then iter fuel st'
      else let (ms, e) := iter fuel st' in (ret :: ms, e)
    end.
Proof. reflexivity. Qed.

Lemma truthy_true (v : option bool) : truthy v = true <-> v = Some true.
Proof. destruct v as [[|]|]; simpl; split; congruence. Qed.

(** C2.  Every message that the iteration of a [DltReader] yields has
    [verbose] set and true, whatever the native reader, the byte source
    and the filters given to the native reader are. *)
Theorem stream_iter_yields_only_verbose fuel :
  forall st : DltReader.state NativeReader Fd,
    Forall (fun m => verbose m = Some true) (fst (iter fuel st)).
Proof.
  induction fuel as [|fuel IH]; intros st; [constructor|].
  rewrite reader_iter_unfold.
  destruct (get_next_message (S fuel) st) as [[[[ret|]|e] st']|]; try constructor.
  destruct (truthy (verbose ret)) eqn:Ev; simpl.
  - specialize (IH st'). destruct (iter fuel st') as [ms e]. simpl in *.
    constructor; [apply truthy_true, Ev | exact IH].
  - apply IH.
Qed.

End ReaderProperties.

(** On the wire format: of a verbose record, a non-verbose one and a
    verbose one delivered in two chunks, the first and the last are
    yielded. *)
Example stream_iter_skips_quiet_record :
  exists m1 m2,
    Wire.stream_iter 5 [Samples.verbose_record;
                        Samples.quiet_record ++ Samples.boot_record]
    = ([m1; m2], Exhausted)
    /\ ts m1 = Some 1%float /\ ts m2 = None.
Proof.
  do 2 eexists. split; [vm_compute; reflexivity|]. split; reflexivity.
Qed.

(* ===================================================================== *)
(** * Properties of [DltFile]                                             *)
(* ===================================================================== *)

Lemma signature_at_bound (b : bytes) (q : nat) :
  DltFile.signature_at b q = true -> q + 4 <= List.length b.
Proof.
  unfold DltFile.signature_at. rewrite bytes_eqb_eq. intros H.
  apply (f_equal (@List.length byte)) in H.
  rewrite length_firstn, length_skipn in H.
  change (List.length DltFile.DLT_SIGNATURE) with 4 in H. lia.
Qed.

(** Below a signature there is a first one. *)
Lemma first_signature (b : bytes) (hi : nat) :
  DltFile.signature_at b hi = true ->
  forall d lo, hi = lo + d ->
    exists q, lo <= q <= hi /\ DltFile.signature_at b q = true
              /\ forall j, lo <= j < q -> DltFile.signature_at b j = false.
Proof.
  intros Hhi. induction d as [|d IH]; intros lo Hd.
  - exists hi. split; [lia|]. split; [exact Hhi|]. intros j Hj. lia.
  - destruct (DltFile.signature_at b lo) eqn:Elo.
    + exists lo. split; [lia|]. split; [exact Elo|]. intros j Hj. lia.
    + destruct (IH (S lo)) as (q & Hq & Hs & Hmin); [lia|].
      exists q. split; [lia|]. split; [exact Hs|].
      intros j Hj. destruct (Nat.eq_dec j lo) as [->|Hne]; [exact Elo|].
      apply Hmin. lia.
Qed.

Lemma recover_unfold n start st :
  DltFile.recover (S n) start st
  = if start <? DltFile.f_len st then
      if DltFile.signature_at (DltFile.content st) start
      then DltFile.mkState (DltFile.content st) start
             (emit (LogSignatureFound start) (DltFile.world st))
      else DltFile.recover n (start + 1)
             (DltFile.mkState (DltFile.content st)
                (Nat.min (start + 4) (DltFile.f_len st)) (DltFile.world st))
    else st.
Proof. reflexivity. Qed.

(** The recovery loop stops at the first signature from [start] on, and
    leaves the file there. *)
Lemma recover_finds n : forall start st q,
  start <= q -> q - start < n ->
  DltFile.signature_at (DltFile.content st) q = true ->
  (forall j, start <= j < q -> DltFile.signature_at (DltFile.content st) j = false) ->
  DltFile.recover n start st
  = DltFile.mkState (DltFile.content st) q
      (emit (LogSignatureFound q) (DltFile.world st)).
Proof.
  induction n as [|n IH]; intros start st q Hle Hn Hq Hmin; [lia|].
  assert (Hb := signature_at_bound _ _ Hq).
  rewrite recover_unfold.
  destruct (Nat.ltb_spec start (DltFile.f_len st)) as [_|Hge];
    [|unfold DltFile.f_len in Hge; lia].
  destruct (Nat.eq_dec start q) as [->|Hne].
  - rewrite Hq. reflexivity.
  - assert (Hs : DltFile.signature_at (DltFile.content st) start = false)
      by (apply Hmin; lia).
    rewrite Hs.
    rewrite (IH (start + 1) _ q).
    + reflexivity.
    + lia.
    + lia.
    + exact Hq.
    + intros j Hj. apply Hmin. lia.
Qed.

Section FileProperties.

Variable from_io : bytes -> nat -> result Raw * nat.
Variable filters : option (list filter_pair).
Variable capture_raw : bool.

Local Abbreviation get_next_message :=
  (DltFile.get_next_message from_io filters capture_raw).
Local Abbreviation iter := (DltFile.iter from_io filters capture_raw).
Local Abbreviation surfaced := (DltFile.surfaced filters).

Lemma file_iter_unfold fuel (st : DltFile.state) :
  iter (S fuel) st
  = match get_next_message (S fuel) st with
    | None => ([], OutOfFuel, st)
    | Some (Raise e, st') => ([], Raised e, st')
    | Some (Ok None, st') => ([], Exhausted, st')
    | Some (Ok (Some ret), st') =>
      let '(ms, e, st'') := iter fuel st' in (ret :: ms, e, st'')
    end.
Proof. reflexivity. Qed.

(** [get_next_message] returns only what passes its two tests. *)
Lemma get_next_message_surfaced fuel : forall st m st',
  get_next_message fuel st = Some (Ok (Some m), st') -> surfaced m = true.
Proof.
  induction fuel as [|fuel IH]; intros st m st'; simpl; [discriminate|].
  destruct (DltFile.pos st =? DltFile.f_len st); [discriminate|].
  destruct (from_io (DltFile.content st) (DltFile.pos st)) as [[sm|e] p]; [|apply IH].
  destruct (DltMessage.loadn sm _) as [msg|e]; [|discriminate].
  unfold DltFile.surfaced.
  destruct (truthy (verbose msg)) eqn:Ev; [|apply IH].
  destruct filters as [fs|].
  - destruct (DltMessage.match_ msg fs) eqn:Em; simpl; [|apply IH].
    intros H. injection H as <- _. rewrite Ev, Em. reflexivity.
  - intros H. injection H as <- _. rewrite Ev. reflexivity.
Qed.

Lemma file_iter_surfaced fuel : forall st,
  Forall (fun m => surfaced m = true) (fst (fst (iter fuel st))).
Proof.
  induction fuel as [|fuel IH]; intros st; [constructor|].
  rewrite file_iter_unfold.
  destruct (get_next_message (S fuel) st) as [[[[ret|]|e] st']|] eqn:E;
    try constructor.
  - apply get_next_message_surfaced in E.
    specialize (IH st'). destruct (iter fuel st') as [[ms e] st'']. simpl in *.
    constructor; assumption.
Qed.

(** C3, as the code has it.  Every message that the iteration of a
    [DltFile] yields has [verbose] set and true, and matches the filter
    list when one is configured: file mode drops the non-verbose messages
    as stream mode does. *)
Theorem file_iter_yields_verbose_and_matching fuel (st : DltFile.state) :
  Forall (fun m => verbose m = Some true
                   /\ match filters with
                      | Some fs => DltMessage.match_ m fs = true
                      | None => True
                      end)
         (fst (fst (iter fuel st))).
Proof.
  eapply Forall_impl; [|apply file_iter_surfaced].
  intros m. unfold DltFile.surfaced. rewrite andb_true_iff, truthy_true.
  intros [Hv Hf]. split; [exact Hv|]. destruct filters; [exact Hf | exact I].
Qed.

End FileProperties.

(** C1, as the code has it.  [match] on an empty filter list is false for
    every message, and a [DltFile] configured with an empty filter list
    yields no message at all. *)
Theorem match_empty_filter_list_is_false :
  (forall m, DltMessage.match_ m [] = false)
  /\ forall from_io capture_raw fuel st,
       fst (fst (DltFile.iter from_io (Some []) capture_raw fuel st)) = [].
Proof.
  split; [reflexivity|]. intros from_io capture_raw fuel st.
  pose proof (file_iter_surfaced from_io (Some []) capture_raw fuel st) as H.
  destruct (fst (fst (DltFile.iter from_io (Some []) capture_raw fuel st))) as [|m ms];
    [reflexivity|].
  inversion H as [|? ? Hm _]; subst. unfold DltFile.surfaced in Hm.
  simpl in Hm. rewrite andb_false_r in Hm. discriminate.
Qed.

(** C1 as stated fails: the file of one verbose record is yielded whole
    without a filter list, its message does not match the empty list, and
    with the empty list configured nothing is yielded. *)
Lemma empty_filter_list_rejects_all :
  fst (Wire.file_iter None Samples.verbose_record)
  = ([Samples.verbose_message], Exhausted)
  /\ DltMessage.match_ Samples.verbose_message [] = false
  /\ fst (Wire.file_iter (Some []) Samples.verbose_record) = ([], Exhausted).
Proof.
  split; [vm_compute; reflexivity|]. split; [reflexivity | vm_compute; reflexivity].
Qed.

(** C3 as stated fails: the file of one non-verbose record, read with no
    filter list, yields nothing. *)
Lemma file_iter_drops_quiet_record :
  exists raw m,
    Wire.stored_message Samples.quiet_record 0 = (Ok raw, 30)
    /\ DltMessage.loadn raw None = Ok m
    /\ verbose m = Some false
    /\ fst (Wire.file_iter None Samples.quiet_record) = ([], Exhausted).
Proof.
  do 2 eexists. split; [vm_compute; reflexivity|].
  split; [vm_compute; reflexivity|]. split; [reflexivity | vm_compute; reflexivity].
Qed.

(** ** Resynchronisation *)

Lemma skipn_length_app (A : Type) (l l' : list A) :
  skipn (List.length l) (l ++ l') = l'.
Proof. induction l as [|a l IH]; simpl; [reflexivity | exact IH]. Qed.

Section FileResync.

Variable from_io : bytes -> nat -> result Raw * nat.
Variable filters : option (list filter_pair).
Variable capture_raw : bool.

Local Abbreviation get_next_message :=
  (DltFile.get_next_message from_io filters capture_raw).
Local Abbreviation iter := (DltFile.iter from_io filters capture_raw).
Local Abbreviation surfaced := (DltFile.surfaced filters).

Lemma get_next_message_at_end k st :
  DltFile.pos st = DltFile.f_len st ->
  get_next_message (S k) st = Some (Ok None, st).
Proof.
  intros H. simpl. apply Nat.eqb_eq in H. rewrite H. reflexivity.
Qed.

Lemma get_next_message_fail k b p w e p' :
  p <> List.length b ->
  from_io b p = (Raise e, p') ->
  get_next_message (S k) (DltFile.mkState b p w)
  = get_next_message k
      (DltFile.recover (List.length b) (p + 1)
         (DltFile.mkState b p' (emit (LogCantParseMessage p) w))).
Proof.
  intros Hne Hio. cbn [DltFile.get_next_message DltFile.pos DltFile.content
                       DltFile.world].
  unfold DltFile.f_len. cbn [DltFile.content].
  apply Nat.eqb_neq in Hne. rewrite Hne, Hio. reflexivity.
Qed.

Lemma get_next_message_ok k b p w sm p' msg :
  p <> List.length b ->
  from_io b p = (Ok sm, p') ->
  DltMessage.loadn sm None = Ok msg ->
  get_next_message (S k) (DltFile.mkState b p w)
  = if surfaced msg then Some (Ok (Some msg), DltFile.mkState b p' w)
    else get_next_message k (DltFile.mkState b p' w).
Proof.
  intros Hne Hio Hload. cbn [DltFile.get_next_message DltFile.pos DltFile.content
                              DltFile.world].
  unfold DltFile.f_len. cbn [DltFile.content].
  apply Nat.eqb_neq in Hne. rewrite Hne, Hio.
  change (DltMessage.loadn sm _) with (DltMessage.loadn sm None). rewrite Hload.
  unfold DltFile.surfaced. destruct (truthy (verbose msg)); [|reflexivity].
  destruct filters as [fs|]; [|reflexivity].
  destruct (DltMessage.match_ msg fs); reflexivity.
Qed.

(** After a failure at [p], decoding resumes at the first signature that
    stands after [p]. *)
Lemma resync_step b p q e p' w k :
  from_io b p = (Raise e, p') ->
  Spec.next_signature b p q ->
  get_next_message (S k) (DltFile.mkState b p w)
  = get_next_message k
      (DltFile.mkState b q (emit (LogSignatureFound q) (emit (LogCantParseMessage p) w))).
Proof.
  intros Hio (Hpq & Hq & Hmin).
  assert (Hb := signature_at_bound _ _ Hq).
  rewrite (@get_next_message_fail k b p w e p'); [|lia|exact Hio].
  rewrite (@recover_finds (List.length b) (p + 1) _ q); simpl; try lia; try assumption.
  - reflexivity.
  - intros j Hj. apply Hmin. lia.
Qed.

(** From a failing offset below a signature at [p2], with every signature
    in between failing too, the loop arrives at [p2]. *)
Lemma cross_garbage b p1 p2 :
  DltFile.signature_at b p2 = true ->
  (forall q, p1 <= q < p2 -> DltFile.signature_at b q = true ->
             exists e p', from_io b q = (Raise e, p')) ->
  forall d q w, p2 = q + S d -> p1 <= q ->
    (exists e p', from_io b q = (Raise e, p')) ->
    exists n w',
      n <= S d
      /\ (exists l, log w' = log w ++ LogCantParseMessage q :: l ++ [LogSignatureFound p2])
      /\ forall k, get_next_message (n + k) (DltFile.mkState b q w)
                   = get_next_message k (DltFile.mkState b p2 w').
Proof.
  intros Hsig Hfail d. induction d as [d IH] using lt_wf_ind.
  intros q w Hd Hq (e & p' & Hio).
  destruct (@first_signature b p2 Hsig d (q + 1)) as (q' & Hq' & Hs & Hmin);
    [lia|].
  assert (Hnext : Spec.next_signature b q q').
  { split; [lia|]. split; [exact Hs|]. intros j Hj. apply Hmin. lia. }
  destruct (Nat.eq_dec q' p2) as [->|Hne].
  - exists 1, (emit (LogSignatureFound p2) (emit (LogCantParseMessage q) w)).
    split; [lia|]. split.
    + exists []. simpl. rewrite <- app_assoc. reflexivity.
    + intros k. apply (@resync_step b q p2 e p' w k Hio Hnext).
  - destruct (IH (p2 - q' - 1)) with (q := q')
        (w := emit (LogSignatureFound q') (emit (LogCantParseMessage q) w))
      as (n & w' & Hn & (l & Hl) & Hrun); try lia.
    + apply Hfail; [lia | exact Hs].
    + exists (S n), w'. split; [lia|]. split.
      * exists (LogSignatureFound q' :: LogCantParseMessage q' :: l).
        rewrite Hl. simpl. rewrite <- !app_assoc. reflexivity.
      * intros k. simpl Nat.add.
        rewrite (@resync_step b q q' e p' w (n + k) Hio Hnext). apply Hrun.
Qed.

(** C4.  A file made of a record, bytes on which decoding fails wherever
    it is attempted (at their start and at every signature inside them),
    and a second record that starts with the signature: the iteration
    decodes both records, yields those that pass the tests of
    [get_next_message], ends at the end of the file, and has logged the
    failure at the start of the garbage and last the signature of the
    second record.  And in any file, after a failure at [p] decoding
    resumes at the first signature standing after [p]. *)
Theorem garbage_between_records_is_skipped
        (r1 g r2 : bytes) (raw1 raw2 : Raw) (m1 m2 : DltMessage) :
  from_io (r1 ++ g ++ r2) 0 = (Ok raw1, List.length r1) ->
  DltMessage.loadn raw1 None = Ok m1 ->
  from_io (r1 ++ g ++ r2) (List.length r1 + List.length g)
  = (Ok raw2, List.length (r1 ++ g ++ r2)) ->
  DltMessage.loadn raw2 None = Ok m2 ->
  firstn 4 r2 = DltFile.DLT_SIGNATURE ->
  (forall q, List.length r1 <= q < List.length r1 + List.length g ->
             q = List.length r1 \/ DltFile.signature_at (r1 ++ g ++ r2) q = true ->
             exists e p', from_io (r1 ++ g ++ r2) q = (Raise e, p')) ->
  (forall fuel, List.length g + 3 <= fuel ->
     exists st',
       iter fuel (DltFile.opened (r1 ++ g ++ r2))
       = (List.filter surfaced [m1; m2], Exhausted, st')
       /\ DltFile.pos st' = List.length (r1 ++ g ++ r2)
       /\ (g <> [] ->
           exists l, log (DltFile.world st')
                     = LogCantParseMessage (List.length r1)
                         :: l ++ [LogSignatureFound (List.length r1 + List.length g)]))
  /\ (forall b p q e p' w fuel,
        from_io b p = (Raise e, p') ->
        Spec.next_signature b p q ->
        get_next_message (S fuel) (DltFile.mkState b p w)
        = get_next_message fuel
            (DltFile.mkState b q
               (emit (LogSignatureFound q) (emit (LogCantParseMessage p) w)))).
Proof.
  intros H1 L1 H2 L2 Hsig Hg.
  split; [|intros b p q e p' w fuel Hio Hn; exact (@resync_step b p q e p' w fuel Hio Hn)].
  set (b := r1 ++ g ++ r2) in *.
  set (p1 := List.length r1) in *. set (p2 := p1 + List.length g) in *.
  assert (Hs2 : DltFile.signature_at b p2 = true).
  { unfold DltFile.signature_at, b, p2, p1. rewrite app_assoc, <- length_app.
    rewrite skipn_length_app. apply bytes_eqb_eq, Hsig. }
  assert (Hlen := signature_at_bound _ _ Hs2).
  (* the second record and the end of the file *)
  assert (Hend : forall w k,
             get_next_message (S k) (DltFile.mkState b (List.length b) w)
             = Some (Ok None, DltFile.mkState b (List.length b) w)).
  { intros w k. apply get_next_message_at_end. reflexivity. }
  assert (Hsecond : forall w k,
             get_next_message (S (S k)) (DltFile.mkState b p2 w)
             = if surfaced m2
               then Some (Ok (Some m2), DltFile.mkState b (List.length b) w)
               else Some (Ok None, DltFile.mkState b (List.length b) w)).
  { intros w k.
    rewrite (@get_next_message_ok (S k) b p2 w raw2 (List.length b) m2) by (assumption || lia).
    rewrite Hend. reflexivity. }
  (* from the end of the first record *)
  assert (Htail : forall w k, List.length g + 2 <= k ->
             exists w',
               get_next_message k (DltFile.mkState b p1 w)
               = (if surfaced m2
                  then Some (Ok (Some m2), DltFile.mkState b (List.length b) w')
                  else Some (Ok None, DltFile.mkState b (List.length b) w'))
               /\ (g <> [] ->
                   exists l, log w' = log w ++ LogCantParseMessage p1
                                        :: l ++ [LogSignatureFound p2])).
  { intros w k Hk. destruct g as [|c g'] eqn:Eg.
    - exists w. split; [|intros Hc; contradiction].
      replace p1 with p2 by (unfold p2; simpl; lia).
      destruct k as [|[|k]]; try (simpl in Hk; lia). apply Hsecond.
    - destruct (@cross_garbage b p1 p2 Hs2) with (d := List.length g') (q := p1) (w := w)
        as (n & w' & Hn & Hl & Hrun).
      + intros q Hq Hs. apply Hg; [exact Hq | right; exact Hs].
      + unfold p2. simpl. lia.
      + lia.
      + apply Hg; [unfold p2; simpl; lia | left; reflexivity].
      + exists w'. split; [|intros _; exact Hl].
        simpl in Hk. replace k with (n + S (S (k - n - 2))) by lia.
        rewrite Hrun. apply Hsecond. }
  intros fuel Hfuel.
  destruct fuel as [|f]; [lia|].
  assert (Hp0 : 0 <> List.length b) by lia.
  rewrite file_iter_unfold. unfold DltFile.opened.
  rewrite (@get_next_message_ok f b 0 world0 raw1 p1 m1 Hp0 H1 L1).
  destruct (Htail world0 f) as (w' & Ht & Hlog); [lia|].
  fold p1 in Ht.
  assert (Hstop : forall k, iter (S k) (DltFile.mkState b (List.length b) w')
                          = ([], Exhausted, DltFile.mkState b (List.length b) w')).
  { intros k. rewrite file_iter_unfold, Hend. reflexivity. }
  exists (DltFile.mkState b (List.length b) w').
  split; [|split; [reflexivity | exact Hlog]].
  cbn [List.filter].
  destruct (surfaced m1) eqn:E1.
  - destruct f as [|f']; [lia|]. rewrite file_iter_unfold.
    fold p1. rewrite Ht.
    destruct (surfaced m2) eqn:E2.
    + destruct f' as [|f'']; [lia|]. rewrite Hstop. reflexivity.
    + reflexivity.
  - fold p1. rewrite Ht.
    destruct (surfaced m2) eqn:E2.
    + destruct f as [|f']; [lia|]. rewrite Hstop. reflexivity.
    + reflexivity.
Qed.

End FileResync.

(** On the wire format: a record, seven bytes of garbage holding a
    signature that no record follows, and the record again. *)
Lemma garbage_between_records_is_skipped_witness :
  exists st',
    DltFile.iter Wire.stored_message None false 10
      (DltFile.opened (Samples.verbose_record ++ Samples.garbage ++ Samples.verbose_record))
    = ([Samples.verbose_message; Samples.verbose_message], Exhausted, st')
    /\ DltFile.pos st' = 93
    /\ (Samples.garbage <> [] ->
        exists l, log (DltFile.world st')
                  = LogCantParseMessage 43 :: l ++ [LogSignatureFound 50]).
Proof.
  apply (proj1 (@garbage_between_records_is_skipped Wire.stored_message None false
                  Samples.verbose_record Samples.garbage Samples.verbose_record
                  Samples.verbose_raw Samples.verbose_raw
                  Samples.verbose_message Samples.verbose_message
                  ltac:(vm_compute; reflexivity) ltac:(vm_compute; reflexivity)
                  ltac:(vm_compute; reflexivity) ltac:(vm_compute; reflexivity)
                  ltac:(vm_compute; reflexivity)
                  ltac:(intros q Hq _;
                        change (43 <= q < 50) in Hq;
                        assert (Hc : q = 43 \/ q = 44 \/ q = 45 \/ q = 46 \/ q = 47
                                     \/ q = 48 \/ q = 49) by lia;
                        repeat (destruct Hc as [->|Hc]); try subst q;
                        do 2 eexists; lazy; reflexivity))).
  vm_compute. lia.
Defined.

(** The hypothesis on the garbage is needed: when the bytes between the two
    records hold a signature at which a record does decode, and that record
    reaches into the second one, the second one is not decoded. *)
Example record_inside_garbage_hides_the_next :
  fst (Wire.file_iter None
         (Samples.verbose_record ++ Samples.garbage_with_record ++ Samples.verbose_record))
  = ([Samples.verbose_message], Exhausted).
Proof. vm_compute; reflexivity. Qed.

(* ===================================================================== *)
(** * Further properties of the payload decoder                           *)
(* ===================================================================== *)

(** [get_value] finds nothing exactly on an item that has none of the
    five attributes. *)
Lemma get_value_none_iff (p : PayloadItem) :
  get_value p = None
  <-> attr_str p = None /\ attr_uint p = None /\ attr_sint p = None
      /\ attr_float p = None /\ attr_bool p = None.
Proof.
  unfold get_value.
  destruct (attr_str p), (attr_uint p), (attr_sint p), (attr_float p), (attr_bool p);
    split; intros H; try discriminate; try tauto;
    destruct H as (H1 & H2 & H3 & H4 & H5); discriminate.
Qed.

(** What [parse_payload] appends is never a [SizedString] object. *)
Lemma expose_not_sized item v v' :
  expose item v = Ok v' -> forall s, v' <> VSizedString s.
Proof.
  unfold expose. destruct (plt_strg item).
  - destruct v as [s0|b|z|f|b]; simpl; try discriminate.
    + destruct (data s0) as [|c d]; [discriminate|].
      destruct (Byte.eqb _ _); [|discriminate].
      intros H s. injection H as <-. discriminate.
    + destruct b as [|c d]; [discriminate|].
      destruct (Byte.eqb _ _); [|discriminate].
      intros H s. injection H as <-. discriminate.
  - intros H s. injection H as <-. destruct v; simpl; discriminate.
Qed.

Section PayloadDecoderFacts.

Variable from_io : bytes -> nat -> result (PayloadItem * nat).

Local Abbreviation parse_loop := (parse_loop from_io).
Local Abbreviation decodes_to := (decodes_to from_io).

Lemma parse_loop_no_sized fuel : forall pl pos ret w vals w',
  Forall (fun v => forall s, v <> VSizedString s) ret ->
  parse_loop fuel pl pos ret w = Some (Ok (Some vals), w') ->
  Forall (fun v => forall s, v <> VSizedString s) vals.
Proof.
  induction fuel as [|fuel IH]; intros pl pos ret w vals w' Hret; simpl; [discriminate|].
  destruct (pos <? List.length pl).
  - destruct (from_io pl pos) as [[item pos']|e]; [|discriminate].
    destruct (get_value item) as [v|]; [|discriminate].
    destruct (expose item v) as [v'|e] eqn:Ex; [|discriminate].
    apply IH. apply Forall_app. split; [exact Hret|].
    constructor; [exact (expose_not_sized _ _ Ex) | constructor].
  - intros H. injection H as <- _. exact Hret.
Qed.

(** X4.  A decoded payload holds plain values only: no entry of the list that
    [parse_payload] returns is a [SizedString] object. *)
Theorem parse_payload_returns_no_sized_string pl w vals w' :
  parse_payload from_io pl w = Some (Ok (Some vals), w') ->
  Forall (fun v => forall s, v <> VSizedString s) vals.
Proof. apply parse_loop_no_sized. constructor. Qed.

Lemma parse_loop_log fuel : forall pl pos ret w r w',
  parse_loop fuel pl pos ret w = Some (r, w') ->
  (r = Ok None
   /\ exists start, start < List.length pl
                    /\ log w' = log w ++ [LogCantParsePayload (hex pl) start])
  \/ (r <> Ok None /\ log w' = log w).
Proof.
  induction fuel as [|fuel IH]; intros pl pos ret w r w'; simpl; [discriminate|].
  destruct (Nat.ltb_spec pos (List.length pl)) as [Hlt|Hge].
  - destruct (from_io pl pos) as [[item pos']|e].
    + destruct (get_value item) as [v|].
      * destruct (expose item v) as [v'|e]; [apply IH|].
        intros H. injection H as <- <-. right. split; [discriminate | reflexivity].
      * intros H. injection H as <- <-. left. split; [reflexivity|].
        exists pos. split; [exact Hlt | reflexivity].
    + intros H. injection H as <- <-. right. split; [discriminate | reflexivity].
  - intros H. injection H as <- <-. right. split; [discriminate | reflexivity].
Qed.

(** X3.  [parse_payload] is counted once, and it logs exactly when it returns
    [None]: then one record, naming the payload and an offset inside it;
    otherwise the log is as it was. *)
Theorem parse_payload_logs_iff_none pl w r w' :
  parse_payload from_io pl w = Some (r, w') ->
  parse_calls w' = S (parse_calls w)
  /\ (r = Ok None ->
      exists start, start < List.length pl
                    /\ log w' = log w ++ [LogCantParsePayload (hex pl) start])
  /\ (r <> Ok None -> log w' = log w).
Proof.
  intros H. split; [apply parse_loop_parse_calls in H; exact H|].
  apply parse_loop_log in H. destruct H as [(Hr & Hs)|(Hr & Hl)].
  - split; [intros _; exact Hs | intros Hc; contradiction].
  - split; [intros Hc; contradiction | intros _; exact Hl].
Qed.

(** Once the cursor is at the end, the loop returns what it has. *)
Lemma parse_loop_done fuel pl pos ret w :
  List.length pl <= pos ->
  parse_loop (S fuel) pl pos ret w = Some (Ok (Some ret), w).
Proof.
  intros H. simpl. destruct (Nat.ltb_spec pos (List.length pl)); [lia | reflexivity].
Qed.

(** Every item starts inside the payload, so there are at most
    [len(pl)] of them, as many as values. *)
Lemma decodes_to_count pl pos items ret :
  decodes_to pl pos items ret ->
  exists k, k <= pos /\ k <= List.length pl
            /\ List.length items = k /\ List.length ret = k
            /\ forall n w, parse_loop (k + n) pl 0 [] w = parse_loop n pl pos ret w.
Proof.
  induction 1 as [|pos items ret item pos' v v' _ (k & Hk & Hl & Hi & Hr & IH)
                    Hlt Hio Hadv Hv Hx].
  - exists 0. repeat split; try lia; reflexivity.
  - exists (S k). rewrite !length_app. cbn [List.length].
    split; [lia|]. split; [lia|]. split; [lia|]. split; [lia|].
    intros n w. replace (S k + n) with (k + S n) by lia.
    rewrite IH. apply parse_loop_step with (item := item) (v := v); assumption.
Qed.

(** X1.  When the items of a payload decode one after the other up to its
    end, [parse_payload] returns their exposed values in order, one per
    item, and logs nothing. *)
Theorem parse_payload_complete pl pos items ret w :
  decodes_to pl pos items ret ->
  List.length pl <= pos ->
  parse_payload from_io pl w = Some (Ok (Some ret), count_parse w)
  /\ List.length ret = List.length items.
Proof.
  intros Hd Hend.
  destruct (decodes_to_count Hd) as (k & Hk & Hl & Hi & Hr & Hrun).
  split; [|lia]. unfold parse_payload.
  replace (S (List.length pl)) with (k + S (List.length pl - k)) by lia.
  rewrite Hrun. apply parse_loop_done. exact Hend.
Qed.

Lemma parse_loop_sound fuel : forall pl pos items ret w r w',
  (forall p item p', p < List.length pl -> from_io pl p = Ok (item, p') -> p < p') ->
  decodes_to pl pos items ret ->
  parse_loop fuel pl pos ret w = Some (r, w') ->
  exists items' pos' ret',
    decodes_to pl pos' items' ret' /\ explains from_io pl r pos' ret'.
Proof.
  induction fuel as [|fuel IH]; intros pl pos items ret w r w' Hadv Hd; simpl;
    [discriminate|].
  destruct (Nat.ltb_spec pos (List.length pl)) as [Hlt|Hge].
  - destruct (from_io pl pos) as [[item pos']|e] eqn:Hio.
    + destruct (get_value item) as [v|] eqn:Hv.
      * destruct (expose item v) as [v'|e] eqn:Hx.
        -- apply (IH pl pos' (items ++ [item])); [exact Hadv|].
           apply decodes_snoc with (pos := pos) (v := v); try assumption.
           apply (Hadv _ _ _ Hlt Hio).
        -- intros H. injection H as <- _. exists items, pos, ret.
           split; [exact Hd|]. split; [exact Hlt|]. right.
           exists item, pos', v. repeat split; assumption.
      * intros H. injection H as <- _. exists items, pos, ret.
        split; [exact Hd|]. split; [exact Hlt|].
        exists item, pos'. split; [exact Hio | exact Hv].
    + intros H. injection H as <- _. exists items, pos, ret.
      split; [exact Hd|]. split; [exact Hlt|]. left. exact Hio.
  - intros H. injection H as <- _. exists items, pos, ret.
    split; [exact Hd|]. split; [reflexivity | exact Hge].
Qed.

Lemma parse_loop_terminates fuel : forall pl pos ret w,
  (forall p item p', p < List.length pl -> from_io pl p = Ok (item, p') -> p < p') ->
  List.length pl - pos < fuel ->
  exists r, parse_loop fuel pl pos ret w = Some r.
Proof.
  induction fuel as [|fuel IH]; intros pl pos ret w Hadv Hfuel; [lia|]. simpl.
  destruct (Nat.ltb_spec pos (List.length pl)) as [Hlt|Hge]; [|eexists; reflexivity].
  destruct (from_io pl pos) as [[item pos']|e] eqn:Hio; [|eexists; reflexivity].
  destruct (get_value item) as [v|]; [|eexists; reflexivity].
  destruct (expose item v) as [v'|e]; [|eexists; reflexivity].
  apply IH; [exact Hadv|]. apply Hadv in Hio; [lia | exact Hlt].
Qed.

(** X2.  When the item parser moves forward on every item it returns,
    [parse_payload] returns or raises (it does not run forever), and its
    outcome is explained by the payload: a list is made of the exposed
    values of items that decode one after the other from offset 0 to the
    end; [None] comes from a reached item that has none of the five
    attributes; an exception comes from the item parser or from the
    exposure of a reached item. *)
Theorem parse_payload_terminates_and_is_sound pl w :
  (forall p item p', p < List.length pl -> from_io pl p = Ok (item, p') -> p < p') ->
  exists r w',
    parse_payload from_io pl w = Some (r, w')
    /\ exists items pos ret,
         decodes_to pl pos items ret /\ explains from_io pl r pos ret.
Proof.
  intros Hadv.
  destruct (@parse_loop_terminates (S (List.length pl)) pl 0 [] (count_parse w) Hadv)
    as [[r w'] Hr]; [lia|].
  exists r, w'. split; [exact Hr|].
  apply (@parse_loop_sound _ pl 0 [] [] _ _ _ Hadv (decodes_nil _ _) Hr).
Qed.

End PayloadDecoderFacts.

(** A test that holds at every number below [n] holds below [n]. *)
Lemma forallb_below (f : nat -> bool) (n : nat) :
  forallb f (seq 0 n) = true -> forall p, p < n -> f p = true.
Proof.
  intros H p Hp. rewrite forallb_forall in H. apply H. apply in_seq. lia.
Qed.

(** The item parser of the wire format moves forward on
    [Samples.payload_terminated]. *)
Lemma wire_items_advance_on_sample p item p' :
  p < List.length Samples.payload_terminated ->
  Wire.payload_item_from_io Samples.payload_terminated p = Ok (item, p') ->
  p < p'.
Proof.
  intros Hlt Hio.
  pose proof (@forallb_below
                (fun q => match Wire.payload_item_from_io Samples.payload_terminated q with
                          | Ok (_, q') => q <? q'
                          | Raise _ => true
                          end)
                (List.length Samples.payload_terminated)
                ltac:(vm_compute; reflexivity) p Hlt) as H.
  cbv beta in H. rewrite Hio in H. apply Nat.ltb_lt, H.
Qed.

Lemma sample_payload_decodes :
  decodes_to Wire.payload_item_from_io Samples.payload_terminated 14
    [Samples.item_uint7; Samples.item_string (Samples.fromhex "686900")]
    [VInt 7; VBytes (Samples.fromhex "6869")].
Proof.
  apply (@decodes_snoc Wire.payload_item_from_io Samples.payload_terminated 5
           [Samples.item_uint7] [VInt 7]
           (Samples.item_string (Samples.fromhex "686900")) 14
           (VSizedString (mkSizedString 3 (Samples.fromhex "686900")))
           (VBytes (Samples.fromhex "6869"))).
  - apply reaches_second_item; [vm_compute; reflexivity | vm_compute; lia].
  - vm_compute; lia.
  - vm_compute; reflexivity.
  - lia.
  - reflexivity.
  - vm_compute; reflexivity.
Qed.

Lemma parse_payload_returns_no_sized_string_witness :
  Forall (fun v => forall s, v <> VSizedString s)
         [VInt 7; VBytes (Samples.fromhex "6869")].
Proof.
  apply (@parse_payload_returns_no_sized_string Wire.payload_item_from_io
           Samples.payload_terminated world0 _ (count_parse world0)).
  vm_compute; reflexivity.
Defined.

Lemma parse_payload_logs_iff_none_witness :
  exists start,
    start < List.length Samples.payload_unknown_tag
    /\ log (emit (LogCantParsePayload "410000000700040000ffff" 5) (count_parse world0))
       = log world0 ++ [LogCantParsePayload (hex Samples.payload_unknown_tag) start].
Proof.
  apply (proj1 (proj2 (@parse_payload_logs_iff_none Wire.payload_item_from_io
                         Samples.payload_unknown_tag world0 (Ok None)
                         (emit (LogCantParsePayload "410000000700040000ffff" 5)
                            (count_parse world0))
                         ltac:(vm_compute; reflexivity)))).
  reflexivity.
Defined.

Lemma parse_payload_complete_witness :
  parse_payload Wire.payload_item_from_io Samples.payload_terminated world0
  = Some (Ok (Some [VInt 7; VBytes (Samples.fromhex "6869")]), count_parse world0)
  /\ List.length [VInt 7; VBytes (Samples.fromhex "6869")]
     = List.length [Samples.item_uint7; Samples.item_string (Samples.fromhex "686900")].
Proof.
  apply (@parse_payload_complete Wire.payload_item_from_io Samples.payload_terminated 14
           _ _ world0 sample_payload_decodes).
  vm_compute; lia.
Defined.

Lemma parse_payload_terminates_and_is_sound_witness :
  exists r w',
    parse_payload Wire.payload_item_from_io Samples.payload_terminated world0
    = Some (r, w')
    /\ exists items pos ret,
         decodes_to Wire.payload_item_from_io Samples.payload_terminated pos items ret
         /\ explains Wire.payload_item_from_io Samples.payload_terminated r pos ret.
Proof.
  apply (@parse_payload_terminates_and_is_sound Wire.payload_item_from_io
           Samples.payload_terminated world0).
  intros p item p'. apply wire_items_advance_on_sample.
Defined.

(* ===================================================================== *)
(** * Further properties of [DltMessage]                                  *)
(* ===================================================================== *)

Lemma byte_to_N_zero (b : byte) : Byte.to_N b = 0%N -> b = Byte.x00.
Proof. destruct b; simpl; intros H; try discriminate; reflexivity. Qed.

Lemma bind_ok (A B : Type) (r : result A) (k : A -> result B) (b : B) :
  bind r k = Ok b -> exists a, r = Ok a /\ k a = Ok b.
Proof. destruct r as [a|e]; simpl; [eauto | discriminate]. Qed.

Lemma bind_raise (A B : Type) (r : result A) (k : A -> result B) (e : exn) :
  bind r k = Raise e -> r = Raise e \/ exists a, r = Ok a /\ k a = Raise e.
Proof.
  destruct r as [a|e']; simpl; [eauto|].
  intros H. injection H as ->. left. reflexivity.
Qed.

(** [bytes.decode]: the only exception is [UnicodeDecodeError]; the text
    is no longer than the bytes; and U+0000 comes only from a NUL byte. *)
Lemma decode_facts (n : nat) : forall b, List.length b <= n ->
  (forall e, decode b = Raise e -> e = UnicodeDecodeError)
  /\ (forall s, decode b = Ok s ->
        List.length s <= List.length b /\ (In 0%N s -> In Byte.x00 b)).
Proof.
  induction n as [|n IH]; intros b Hn.
  - destruct b; [|simpl in Hn; lia]. simpl. split.
    + discriminate.
    + intros s H. injection H as <-. split; [simpl; lia | intros []].
  - destruct b as [|b0 r0]; [simpl; split; [discriminate|];
                              intros s H; injection H as <-; split; [simpl; lia | intros []]|].
    simpl in Hn.
    assert (Htail : forall r, List.length r <= List.length r0 ->
              (forall e, decode r = Raise e -> e = UnicodeDecodeError)
              /\ (forall s, decode r = Ok s ->
                    List.length s <= List.length r /\ (In 0%N s -> In Byte.x00 r)))
      by (intros r Hr; apply IH; lia).
    cbn [decode].
    destruct (Byte.to_N b0 <? 128)%N eqn:E1.
    { destruct (Htail r0 (le_n _)) as [He Hs]. split.
      - intros e H. apply bind_raise in H.
        destruct H as [H|(a & _ & H)]; [exact (He _ H) | discriminate].
      - intros s H. apply bind_ok in H. destruct H as (a & Ha & H).
        injection H as <-. destruct (Hs _ Ha) as [Hl Hz]. simpl. split; [lia|].
        intros [Hc|Hc]; [left; apply byte_to_N_zero, Hc | right; exact (Hz Hc)]. }
    destruct ((194 <=? Byte.to_N b0) && (Byte.to_N b0 <=? 223))%N eqn:E2.
    { destruct r0 as [|b1 r1]; [split; [intros e H; injection H as <-; reflexivity
                                       | discriminate]|].
      destruct (is_cont (Byte.to_N b1)) eqn:C1;
        [|split; [intros e H; injection H as <-; reflexivity | discriminate]].
      destruct (Htail r1 ltac:(simpl; lia)) as [He Hs]. split.
      - intros e H. apply bind_raise in H.
        destruct H as [H|(a & _ & H)]; [exact (He _ H) | discriminate].
      - intros s H. apply bind_ok in H. destruct H as (a & Ha & H).
        injection H as <-. destruct (Hs _ Ha) as [Hl Hz]. simpl. split; [lia|].
        intros [Hc|Hc]; [|right; right; exact (Hz Hc)].
        apply andb_true_iff in E2. destruct E2 as [E2 _].
        apply N.leb_le in E2. lia. }
    destruct ((224 <=? Byte.to_N b0) && (Byte.to_N b0 <=? 239))%N eqn:E3.
    { destruct r0 as [|b1 [|b2 r2]];
        try (split; [intros e H; injection H as <-; reflexivity | discriminate]).
      match goal with
      | |- context [if ?c then _ else _] => destruct c eqn:C
      end; [|split; [intros e H; injection H as <-; reflexivity | discriminate]].
      destruct (Htail r2 ltac:(simpl; lia)) as [He Hs]. split.
      - intros e H. apply bind_raise in H.
        destruct H as [H|(a & _ & H)]; [exact (He _ H) | discriminate].
      - intros s H. apply bind_ok in H. destruct H as (a & Ha & H).
        injection H as <-. destruct (Hs _ Ha) as [Hl Hz]. simpl. split; [lia|].
        intros [Hc|Hc]; [|right; right; right; exact (Hz Hc)].
        apply andb_true_iff in E3. destruct E3 as [E3 _]. apply N.leb_le in E3.
        apply andb_true_iff in C. destruct C as [C _].
        apply andb_true_iff in C. destruct C as [C _]. apply N.leb_le in C.
        destruct (Byte.to_N b0 =? 224)%N eqn:E4;
          [apply N.eqb_eq in E4 | apply N.eqb_neq in E4]; lia. }
    destruct ((240 <=? Byte.to_N b0) && (Byte.to_N b0 <=? 244))%N eqn:E5.
    { destruct r0 as [|b1 [|b2 [|b3 r3]]];
        try (split; [intros e H; injection H as <-; reflexivity | discriminate]).
      match goal with
      | |- context [if ?c then _ else _] => destruct c eqn:C
      end; [|split; [intros e H; injection H as <-; reflexivity | discriminate]].
      destruct (Htail r3 ltac:(simpl; lia)) as [He Hs]. split.
      - intros e H. apply bind_raise in H.
        destruct H as [H|(a & _ & H)]; [exact (He _ H) | discriminate].
      - intros s H. apply bind_ok in H. destruct H as (a & Ha & H).
        injection H as <-. destruct (Hs _ Ha) as [Hl Hz]. simpl. split; [lia|].
        intros [Hc|Hc]; [|right; right; right; right; exact (Hz Hc)].
        apply andb_true_iff in E5. destruct E5 as [E5 _]. apply N.leb_le in E5.
        apply andb_true_iff in C. destruct C as [C _].
        apply andb_true_iff in C. destruct C as [C _].
        apply andb_true_iff in C. destruct C as [C _]. apply N.leb_le in C.
        destruct (Byte.to_N b0 =? 240)%N eqn:E4;
          [apply N.eqb_eq in E4 | apply N.eqb_neq in E4]; lia. }
    split; [intros e H; injection H as <-; reflexivity | discriminate].
Qed.

Lemma loadn_raise_facts raw raw_data e :
  DltMessage.loadn raw raw_data = Raise e ->
  e = UnicodeDecodeError
  /\ exists eh, get_extended raw = Some eh
                /\ (decode (strip_nul (ehdr_app eh)) = Raise UnicodeDecodeError
                    \/ decode (strip_nul (ehdr_ctx eh)) = Raise UnicodeDecodeError).
Proof.
  unfold DltMessage.loadn. destruct (get_extended raw) as [eh|]; simpl; [|discriminate].
  destruct (decode (strip_nul (ehdr_app eh))) as [a|ea] eqn:Ea; simpl.
  - destruct (decode (strip_nul (ehdr_ctx eh))) as [c|ec] eqn:Ec; simpl; [discriminate|].
    intros H. injection H as <-.
    assert (Hu : ec = UnicodeDecodeError)
      by (apply (proj1 (@decode_facts _ _ (le_n _)) _ Ec)).
    subst ec. split; [reflexivity|]. exists eh. split; [reflexivity | right; exact Ec].
  - intros H. injection H as <-.
    assert (Hu : ea = UnicodeDecodeError)
      by (apply (proj1 (@decode_facts _ _ (le_n _)) _ Ea)).
    subst ea. split; [reflexivity|]. exists eh. split; [reflexivity | left; exact Ea].
Qed.

(** X5.  [loadn] fails only on an id that is not UTF-8: the exception is
    [UnicodeDecodeError], the record has an extended header, and one of
    its two ids, NUL bytes removed, does not decode. *)
Theorem loadn_raises_only_on_undecodable_id raw raw_data e :
  DltMessage.loadn raw raw_data = Raise e ->
  e = UnicodeDecodeError
  /\ exists eh, get_extended raw = Some eh
                /\ (decode (strip_nul (ehdr_app eh)) = Raise UnicodeDecodeError
                    \/ decode (strip_nul (ehdr_ctx eh)) = Raise UnicodeDecodeError).
Proof. exact (@loadn_raise_facts raw raw_data e). Qed.

Lemma loadn_raises_only_on_undecodable_id_witness :
  UnicodeDecodeError = UnicodeDecodeError
  /\ exists eh,
       get_extended (mkRaw (Some (mkExtendedHeader (Samples.fromhex "41ff0000")
                                    (Samples.fromhex "43545831") true))
                       (mkBasicHeader None) (mkStorageHeader 0 0) [] [])
       = Some eh
       /\ (decode (strip_nul (ehdr_app eh)) = Raise UnicodeDecodeError
           \/ decode (strip_nul (ehdr_ctx eh)) = Raise UnicodeDecodeError).
Proof.
  apply (@loadn_raises_only_on_undecodable_id
           (mkRaw (Some (mkExtendedHeader (Samples.fromhex "41ff0000")
                           (Samples.fromhex "43545831") true))
              (mkBasicHeader None) (mkStorageHeader 0 0) [] [])
           None UnicodeDecodeError).
  vm_compute; reflexivity.
Defined.



Lemma strip_nul_facts (b : bytes) :
  ~ In Byte.x00 (strip_nul b) /\ List.length (strip_nul b) <= List.length b.
Proof.
  unfold strip_nul. split.
  - intros H. apply filter_In in H. destruct H as [_ H]. discriminate.
  - apply filter_length_le.
Qed.

Lemma decoded_id_facts (b : bytes) (s : str) :
  decode (strip_nul b) = Ok s ->
  ~ In 0%N s /\ List.length s <= List.length b.
Proof.
  intros H. destruct (strip_nul_facts b) as [Hn Hl].
  destruct (proj2 (@decode_facts _ _ (le_n _)) _ H) as [Hl' Hz].
  split; [intros Hc; exact (Hn (Hz Hc)) | lia].
Qed.

(** X7.  The ids of a loaded message hold no NUL character and are no longer
    than the header fields they come from (4 characters at most for the
    4-byte fields of a record). *)
Theorem loadn_ids_are_nul_free_and_short raw raw_data m eh :
  DltMessage.loadn raw raw_data = Ok m ->
  get_extended raw = Some eh ->
  exists a c,
    app m = Some a /\ ctx m = Some c
    /\ ~ In 0%N a /\ ~ In 0%N c
    /\ List.length a <= List.length (ehdr_app eh)
    /\ List.length c <= List.length (ehdr_ctx eh).
Proof.
  unfold DltMessage.loadn. intros H He. rewrite He in H. simpl in H.
  destruct (decode (strip_nul (ehdr_app eh))) as [a|] eqn:Ea; simpl in H; [|discriminate].
  destruct (decode (strip_nul (ehdr_ctx eh))) as [c|] eqn:Ec; simpl in H; [|discriminate].
  injection H as <-. simpl. exists a, c.
  destruct (decoded_id_facts _ Ea) as [Ha La].
  destruct (decoded_id_facts _ Ec) as [Hc Lc].
  repeat split; assumption.
Qed.

Lemma loadn_ids_are_nul_free_and_short_witness :
  exists a c,
    app Samples.verbose_message = Some a /\ ctx Samples.verbose_message = Some c
    /\ ~ In 0%N a /\ ~ In 0%N c
    /\ List.length a <= 4 /\ List.length c <= 4.
Proof.
  apply (@loadn_ids_are_nul_free_and_short Samples.verbose_raw None
           Samples.verbose_message
           (mkExtendedHeader (Samples.fromhex "41505031") (Samples.fromhex "43545831") true)).
  - vm_compute; reflexivity.
  - reflexivity.
Defined.

(** X9.  [match] on a concatenation of filter lists is the disjunction of the
    two matches. *)
Theorem match_app (m : DltMessage) (f1 f2 : list filter_pair) :
  DltMessage.match_ m (f1 ++ f2) = DltMessage.match_ m f1 || DltMessage.match_ m f2.
Proof.
  induction f1 as [|f r IH]; simpl; [reflexivity|].
  destruct (DltMessage.pair_matches m f); [reflexivity | exact IH].
Qed.

(** X10.  [match] depends on the pairs a list holds, not on their order or
    number: a list that holds every pair of a matching list matches too. *)
Theorem match_monotone (m : DltMessage) (fs fs' : list filter_pair) :
  (forall f, In f fs -> In f fs') ->
  DltMessage.match_ m fs = true -> DltMessage.match_ m fs' = true.
Proof.
  intros Hincl. rewrite !match_exists. intros (f & Hin & Hf).
  exists f. split; [apply Hincl, Hin | exact Hf].
Qed.

Lemma match_monotone_witness :
  DltMessage.match_ Samples.verbose_message
    [(None, Some (str_of_string "CTX9")); (Some (str_of_string "APP1"), None);
     (Some (str_of_string "APP1"), None)] = true.
Proof.
  apply (@match_monotone Samples.verbose_message
           [(Some (str_of_string "APP1"), None); (None, Some (str_of_string "CTX9"))]).
  - intros f [<-|[<-|[]]]; simpl; auto.
  - vm_compute; reflexivity.
Defined.

(** X11.  A list that holds the pair of two wildcards matches every message. *)
Theorem match_wildcard_pair (m : DltMessage) (fs : list filter_pair) :
  In (None, None) fs -> DltMessage.match_ m fs = true.
Proof.
  intros Hin. apply match_exists. exists (None, None). split; [exact Hin|].
  split; left; reflexivity.
Qed.

Lemma match_wildcard_pair_witness :
  DltMessage.match_ (Samples.message_with [])
    [(Some (str_of_string "APP1"), None); (None, None)] = true.
Proof.
  apply match_wildcard_pair. right. left. reflexivity.
Defined.

(** X12.  A message without ids (a record without extended header) is matched
    only by the pair of two wildcards. *)
Theorem match_without_ids (m : DltMessage) (fs : list filter_pair) :
  app m = None -> ctx m = None ->
  (DltMessage.match_ m fs = true <-> In (None, None) fs).
Proof.
  intros Ha Hc. split.
  2: { intros Hin. apply match_exists. exists (None, None).
       split; [exact Hin | split; left; reflexivity]. }
  rewrite match_exists. intros ([fa fc] & Hin & Hfa & Hfc).
  unfold Spec.field_accepts in Hfa, Hfc. simpl in Hfa, Hfc. rewrite Ha in Hfa.
  rewrite Hc in Hfc.
  destruct Hfa as [->|(s & _ & Hs)]; [|discriminate].
  destruct Hfc as [->|(s & _ & Hs)]; [|discriminate].
  exact Hin.
Qed.

Lemma match_without_ids_witness :
  DltMessage.match_ (Samples.message_with [])
    [(Some (str_of_string "APP1"), None); (None, Some (str_of_string "CTX1"))] = true
  <-> In (None, None)
         [(Some (str_of_string "APP1"), None); (None, Some (str_of_string "CTX1"))].
Proof.
  apply (@match_without_ids (Samples.message_with [])); reflexivity.
Defined.

(** ** [hex] *)

Lemma hex_byte_round_trip (b : byte) :
  Byte.of_N (16 * Samples.hex_value (hex_digit (Byte.to_N b / 16))
             + Samples.hex_value (hex_digit (Byte.to_N b mod 16)))
  = Some b.
Proof. destruct b; vm_compute; reflexivity. Qed.

(** X13.  [hex] writes two characters per byte and loses nothing: reading the
    text back as hexadecimal gives the bytes again. *)
Theorem hex_is_lossless (v : bytes) :
  String.length (hex v) = 2 * List.length v /\ Samples.fromhex (hex v) = v.
Proof.
  induction v as [|b r [IHl IHf]]; [split; reflexivity|].
  split.
  - cbn [hex String.length List.length]. rewrite IHl. lia.
  - cbn [hex Samples.fromhex]. rewrite hex_byte_round_trip, IHf. reflexivity.
Qed.

(* ===================================================================== *)
(** * Properties of [human_friendly_payload]                              *)
(* ===================================================================== *)

Lemma lstrip_head (s : str) :
  forall c, hd_error (Text.lstrip s) = Some c -> Text.is_space c = false.
Proof.
  induction s as [|a r IH]; intros c; simpl; [discriminate|].
  destruct (Text.is_space a) eqn:E; [apply IH|].
  simpl. intros H. injection H as <-. exact E.
Qed.

(** Stripping on the left keeps a final character that is no space. *)
Lemma lstrip_keeps_last (l : str) (c : N) :
  Text.is_space c = false ->
  exists t, Text.lstrip (l ++ [c]) = t ++ [c].
Proof.
  intros Hc. induction l as [|a r [t IH]]; simpl.
  - rewrite Hc. exists []. reflexivity.
  - destruct (Text.is_space a); [exists t; exact IH|].
    exists (a :: r). reflexivity.
Qed.

Lemma strip_ends (s : str) :
  forall c, hd_error (Text.strip s) = Some c \/ hd_error (rev (Text.strip s)) = Some c ->
            Text.is_space c = false.
Proof.
  unfold Text.strip, Text.rstrip. intros c.
  destruct (Text.lstrip s) as [|a r] eqn:El.
  - simpl. intros [H|H]; discriminate.
  - assert (Ha : Text.is_space a = false) by (apply lstrip_head with (s := s); rewrite El; reflexivity).
    rewrite rev_involutive.
    intros [H|H]; [|exact (@lstrip_head _ _ H)].
    change (rev (a :: r)) with (rev r ++ [a]) in H.
    destruct (@lstrip_keeps_last (rev r) a Ha) as [t Ht]. rewrite Ht in H.
    rewrite rev_app_distr in H. simpl in H. injection H as <-. exact Ha.
Qed.

Section HumanFriendlyProperties.

Variable from_io : bytes -> nat -> result (PayloadItem * nat).

(** X14.  [human_friendly_payload] adds no failure to [payload]: it raises only
    what the access of [payload] raises, and a text it returns has no
    white space at either end. *)
Theorem human_friendly_payload_is_safe_and_stripped m w r m' w' :
  human_friendly_payload from_io m w = Some (r, m', w') ->
  (forall e, r = Raise e -> payload from_io m w = Some (Raise e, m', w'))
  /\ (forall s c, r = Ok (FText s) ->
        hd_error s = Some c \/ hd_error (rev s) = Some c -> Text.is_space c = false).
Proof.
  unfold human_friendly_payload.
  destruct (payload from_io m w) as [[[[pl|e0] m0] w0]|]; [| |discriminate].
  - assert (Hplain : Some (Ok (FPayload pl), m0, w0) = Some (r, m', w') ->
              (forall e, r = Raise e ->
                 Some (@Ok (option (list value)) pl, m0, w0) = Some (Raise e, m', w'))
              /\ (forall s c, r = Ok (FText s) ->
                    hd_error s = Some c \/ hd_error (rev s) = Some c ->
                    Text.is_space c = false)).
    { intros H. injection H as <- _ _. split; [intros e He | intros s c He]; discriminate. }
    destruct pl as [[|[sz|b|z|f|b] [|v2 rest]]|]; try exact Hplain.
    destruct (decode b) as [t|e] eqn:Ed.
    + intros H. injection H as <- _ _. split; [intros e He; discriminate|].
      intros s c He. injection He as <-. apply strip_ends.
    + assert (He : e = UnicodeDecodeError)
        by (apply (proj1 (@decode_facts _ _ (le_n _)) _ Ed)).
      subst e. intros H. injection H as <- _ _.
      split; [intros e He | intros s c He]; discriminate.
  - intros H. injection H as <- <- <-. split; [|intros s c He; discriminate].
    intros e He. injection He as <-. reflexivity.
Qed.


End HumanFriendlyProperties.

Lemma human_friendly_payload_is_safe_and_stripped_witness :
  (forall e, @Ok friendly (FText (str_of_string "hi")) = Raise e ->
     payload Wire.payload_item_from_io
       (Samples.message_with MoreSamples.payload_padded) world0
     = Some (Raise e,
             set_payload_cache (Samples.message_with MoreSamples.payload_padded)
               (Some [VBytes (Samples.fromhex "2068692000")]),
             count_parse world0))
  /\ (forall s c, Ok (FText (str_of_string "hi")) = Ok (FText s) ->
        hd_error s = Some c \/ hd_error (rev s) = Some c -> Text.is_space c = false).
Proof.
  apply (@human_friendly_payload_is_safe_and_stripped Wire.payload_item_from_io
           (Samples.message_with MoreSamples.payload_padded) world0).
  vm_compute; reflexivity.
Defined.


Example human_friendly_payload_of_padded_text :
  exists m' w',
    human_friendly_payload Wire.payload_item_from_io
      (Samples.message_with MoreSamples.payload_padded) world0
    = Some (Ok (FText (str_of_string "hi")), m', w').
Proof. do 2 eexists. vm_compute; reflexivity. Qed.

(* ===================================================================== *)
(** * Further properties of [DltReader]                                   *)
(* ===================================================================== *)

Section ReaderFacts.

Variable NativeReader : Type.
Variable Fd : Type.
Variable read : NativeReader -> bool * NativeReader.
Variable get_buffer : NativeReader -> nat.
Variable readinto : Fd -> nat -> bytes * Fd.
Variable update_buffer : NativeReader -> bytes -> NativeReader.
Variable consume_message : NativeReader -> NativeReader.
Variable current : NativeReader -> Raw.

Local Abbreviation get_next_message :=
  (DltReader.get_next_message read get_buffer readinto update_buffer
     consume_message current).
Local Abbreviation iter :=
  (DltReader.iter read get_buffer readinto update_buffer consume_message current).




End ReaderFacts.



Example stream_iter_stops_at_undecodable_id :
  Wire.stream_iter 5 [Samples.verbose_record ++ MoreSamples.bad_id_record;
                      Samples.verbose_record]
  = ([Samples.verbose_message], Raised UnicodeDecodeError).
Proof. vm_compute; reflexivity. Qed.

(* ===================================================================== *)
(** * Further properties of [DltFile]                                     *)
(* ===================================================================== *)

Lemma recover_content n : forall start st,
  DltFile.content (DltFile.recover n start st) = DltFile.content st.
Proof.
  induction n as [|n IH]; intros start st; [reflexivity|].
  rewrite recover_unfold.
  destruct (start <? DltFile.f_len st); [|reflexivity].
  destruct (DltFile.signature_at (DltFile.content st) start); [reflexivity|].
  rewrite IH. reflexivity.
Qed.

(** Where the recovery loop leaves the file: at or after [start], within
    the file. *)
Lemma recover_pos n : forall start st,
  start < DltFile.f_len st ->
  DltFile.f_len st - start <= n ->
  start <= DltFile.pos (DltFile.recover n start st) <= DltFile.f_len st.
Proof.
  induction n as [|n IH]; intros start st Hlt Hn; [lia|].
  rewrite recover_unfold.
  destruct (Nat.ltb_spec start (DltFile.f_len st)) as [_|Hge]; [|lia].
  destruct (DltFile.signature_at (DltFile.content st) start); [simpl; lia|].
  destruct (Nat.lt_ge_cases (start + 1) (DltFile.f_len st)) as [Hnext|Hlast].
  - pose proof (IH (start + 1)
                  (DltFile.mkState (DltFile.content st)
                     (Nat.min (start + 4) (DltFile.f_len st)) (DltFile.world st))) as H.
    unfold DltFile.f_len in *. simpl in H. specialize (H Hnext). lia.
  - destruct n as [|n']; [simpl; lia|].
    rewrite recover_unfold. unfold DltFile.f_len in *. simpl.
    destruct (Nat.ltb_spec (start + 1) (List.length (DltFile.content st))); [lia|].
    simpl. lia.
Qed.

(** Without a signature from [start] on, the recovery loop runs to the
    end of the file and logs nothing. *)
Lemma recover_without_signature n : forall start st,
  start < DltFile.f_len st ->
  DltFile.f_len st - start <= n ->
  (forall j, start <= j -> DltFile.signature_at (DltFile.content st) j = false) ->
  DltFile.recover n start st
  = DltFile.mkState (DltFile.content st) (DltFile.f_len st) (DltFile.world st).
Proof.
  induction n as [|n IH]; intros start st Hlt Hn Hno; [lia|].
  rewrite recover_unfold.
  destruct (Nat.ltb_spec start (DltFile.f_len st)) as [_|Hge]; [|lia].
  rewrite (Hno start (le_n _)).
  destruct (Nat.lt_ge_cases (start + 1) (DltFile.f_len st)) as [Hnext|Hlast].
  - rewrite IH; unfold DltFile.f_len in *; simpl; try lia; try reflexivity.
    intros j Hj. apply Hno. lia.
  - destruct n as [|n']; [|rewrite recover_unfold]; unfold DltFile.f_len in *; simpl.
    + f_equal. lia.
    + destruct (Nat.ltb_spec (start + 1) (List.length (DltFile.content st))); [lia|].
      f_equal. lia.
Qed.

Lemma recover_out_of_range n start st :
  DltFile.f_len st <= start -> DltFile.recover n start st = st.
Proof.
  intros H. destruct n as [|n]; [reflexivity|]. rewrite recover_unfold.
  destruct (Nat.ltb_spec start (DltFile.f_len st)); [lia | reflexivity].
Qed.

Lemma capture_raw_get_next_message from_io filters fuel :
  forall st,
    DltFile.get_next_message from_io filters true fuel st
    = DltFile.get_next_message from_io filters false fuel st.
Proof.
  induction fuel as [|fuel IH]; intros st; [reflexivity|]. simpl.
  destruct (DltFile.pos st =? DltFile.f_len st); [reflexivity|].
  destruct (from_io (DltFile.content st) (DltFile.pos st)) as [[sm|e] p]; [|apply IH].
  change (DltMessage.loadn sm (Some (slice (DltFile.content st) (DltFile.pos st) p)))
    with (DltMessage.loadn sm None).
  destruct (DltMessage.loadn sm None) as [msg|e]; [|reflexivity].
  destruct (truthy (verbose msg)); [|apply IH].
  destruct filters as [fs|]; [|reflexivity].
  destruct (DltMessage.match_ msg fs); simpl; [reflexivity | apply IH].
Qed.

(** X18.  [self._capture_raw] changes nothing: [loadn] overwrites the bytes that
    [get_next_message] captured, so what [get_next_message] returns, the
    messages yielded, the end of the iteration and the file afterwards are
    the same with and without it. *)
Theorem capture_raw_has_no_effect from_io filters fuel :
  forall st,
    DltFile.get_next_message from_io filters true fuel st
    = DltFile.get_next_message from_io filters false fuel st
    /\ DltFile.iter from_io filters true fuel st
       = DltFile.iter from_io filters false fuel st.
Proof.
  intros st. split; [apply capture_raw_get_next_message|]. revert st.
  induction fuel as [|fuel IH]; intros st; [reflexivity|].
  rewrite !file_iter_unfold, capture_raw_get_next_message.
  destruct (DltFile.get_next_message from_io filters false (S fuel) st)
    as [[[[ret|]|e] st']|]; try reflexivity; rewrite IH; reflexivity.
Qed.

Section FileFacts.

Variable from_io : bytes -> nat -> result Raw * nat.
Variable filters : option (list filter_pair).
Variable capture_raw : bool.

Local Abbreviation get_next_message :=
  (DltFile.get_next_message from_io filters capture_raw).
Local Abbreviation iter := (DltFile.iter from_io filters capture_raw).
Local Abbreviation surfaced := (DltFile.surfaced filters).

Lemma file_get_next_message_result fuel : forall st r st',
  get_next_message fuel st = Some (r, st') ->
  DltFile.content st' = DltFile.content st
  /\ match r with
     | Ok None => DltFile.pos st' = DltFile.f_len st'
     | Ok (Some m) => surfaced m = true
     | Raise e => e = UnicodeDecodeError
     end.
Proof.
  induction fuel as [|fuel IH]; intros st r st'; simpl; [discriminate|].
  destruct (Nat.eqb_spec (DltFile.pos st) (DltFile.f_len st)) as [Hend|Hin].
  - intros H. injection H as <- <-. split; [reflexivity | exact Hend].
  - destruct (from_io (DltFile.content st) (DltFile.pos st)) as [[sm|e] p].
    + destruct (DltMessage.loadn sm _) as [msg|e] eqn:El.
      * assert (Hnext : get_next_message fuel
                          (DltFile.mkState (DltFile.content st) p (DltFile.world st))
                        = Some (r, st') ->
                        DltFile.content st' = DltFile.content st
                        /\ match r with
                           | Ok None => DltFile.pos st' = DltFile.f_len st'
                           | Ok (Some m) => surfaced m = true
                           | Raise e => e = UnicodeDecodeError
                           end)
          by (intros H; apply IH in H; exact H).
        unfold DltFile.surfaced.
        destruct (truthy (verbose msg)) eqn:Ev; [|exact Hnext].
        destruct filters as [fs|].
        -- destruct (DltMessage.match_ msg fs) eqn:Em; simpl; [|exact Hnext].
           intros H. injection H as <- <-. split; [reflexivity|].
           rewrite Ev, Em. reflexivity.
        -- intros H. injection H as <- <-. split; [reflexivity|].
           rewrite Ev. reflexivity.
      * intros H. injection H as <- <-. split; [reflexivity|].
        apply (loadn_raise_facts _ _ El).
    + intros H. apply IH in H. rewrite recover_content in H. exact H.
Qed.

(** X19.  What [get_next_message] of a [DltFile] can return: [None] only with
    the file at its end, a message only if it is verbose and matches, and
    no exception but the [UnicodeDecodeError] of [loadn] (what the parser
    raises is caught); the content of the file is never changed. *)
Theorem file_get_next_message_outcome fuel : forall st r st',
  get_next_message fuel st = Some (r, st') ->
  DltFile.content st' = DltFile.content st
  /\ match r with
     | Ok None => DltFile.pos st' = DltFile.f_len st'
     | Ok (Some m) => surfaced m = true
     | Raise e => e = UnicodeDecodeError
     end.
Proof. exact (file_get_next_message_result fuel). Qed.

(** X20.  When no signature stands after a failure at [p], the recovery runs to
    the end of the file and [get_next_message] returns [None]: the
    iteration ends without an exception, having logged the failure. *)
Theorem failure_without_signature_ends_the_file b p e p' w k :
  p < List.length b ->
  from_io b p = (Raise e, p') ->
  p + 1 < List.length b \/ p' = List.length b ->
  (forall j, p < j -> DltFile.signature_at b j = false) ->
  get_next_message (S (S k)) (DltFile.mkState b p w)
  = Some (Ok None, DltFile.mkState b (List.length b) (emit (LogCantParseMessage p) w)).
Proof.
  intros Hp Hio Hcase Hno.
  rewrite (@get_next_message_fail from_io filters capture_raw (S k) b p w e p');
    [|lia|exact Hio].
  assert (Hrec : DltFile.recover (List.length b) (p + 1)
                   (DltFile.mkState b p' (emit (LogCantParseMessage p) w))
                 = DltFile.mkState b (List.length b) (emit (LogCantParseMessage p) w)).
  { destruct (Nat.lt_ge_cases (p + 1) (List.length b)) as [Hlt|Hge].
    - rewrite recover_without_signature; unfold DltFile.f_len; simpl; try lia;
        try reflexivity.
      intros j Hj. apply Hno. lia.
    - destruct Hcase as [Hc | ->]; [lia|].
      apply recover_out_of_range. unfold DltFile.f_len. simpl. lia. }
  rewrite Hrec. apply get_next_message_at_end. reflexivity.
Qed.

(** Over records that decode one after the other, [get_next_message]
    returns the first message that is verbose and matches, or [None] at
    the end of the file. *)
Lemma records_next_message b : forall start msgs,
  records_at from_io b start msgs ->
  forall k w, List.length msgs < k ->
    (exists m stop rest,
        get_next_message k (DltFile.mkState b start w)
        = Some (Ok (Some m), DltFile.mkState b stop w)
        /\ records_at from_io b stop rest
        /\ List.filter surfaced msgs = m :: List.filter surfaced rest
        /\ List.length rest < List.length msgs)
    \/ (get_next_message k (DltFile.mkState b start w)
        = Some (Ok None, DltFile.mkState b (List.length b) w)
        /\ List.filter surfaced msgs = []).
Proof.
  induction 1 as [|start raw stop msg msgs Hlt Hio Hload Hrest IH]; intros k w Hk.
  - right. destruct k as [|k]; [simpl in Hk; lia|].
    split; [apply get_next_message_at_end; reflexivity | reflexivity].
  - destruct k as [|k]; [lia|]. simpl in Hk.
    rewrite (@get_next_message_ok from_io filters capture_raw k b start w raw stop msg);
      [|lia|exact Hio|exact Hload].
    cbn [List.filter]. destruct (surfaced msg) eqn:Es.
    + left. exists msg, stop, msgs. repeat split; try assumption; simpl; lia.
    + destruct (IH k w) as [(m & stop' & rest & Hg & Hr & Hf & Hl)|(Hg & Hf)]; [lia| |].
      * left. exists m, stop', rest. repeat split; try assumption. simpl. lia.
      * right. split; assumption.
Qed.

Lemma back_to_back_records_bounded b n : forall msgs start w fuel,
  List.length msgs <= n ->
  records_at from_io b start msgs ->
  List.length msgs < fuel ->
  iter fuel (DltFile.mkState b start w)
  = (List.filter surfaced msgs, Exhausted, DltFile.mkState b (List.length b) w).
Proof.
  induction n as [|n IH]; intros msgs start w fuel Hn Hrec Hfuel.
  - destruct msgs; [|simpl in Hn; lia].
    destruct fuel as [|f]; [simpl in Hfuel; lia|]. rewrite file_iter_unfold.
    destruct (records_next_message Hrec (k := S f) w)
      as [(m & stop & rest & _ & _ & _ & Hl)|(Hg & Hf)]; [exact Hfuel|simpl in Hl; lia|].
    rewrite Hg. reflexivity.
  - destruct fuel as [|f]; [lia|]. rewrite file_iter_unfold.
    destruct (records_next_message Hrec (k := S f) w)
      as [(m & stop & rest & Hg & Hr & Hf & Hl)|(Hg & Hf)]; [exact Hfuel| |].
    + rewrite Hg, Hf. rewrite (IH rest stop w f); [reflexivity|lia|exact Hr|lia].
    + rewrite Hg, Hf. reflexivity.
Qed.

(** X21.  A file made of records that decode one after the other up to its
    end: the iteration yields the messages that are verbose and match, in
    the order of the records, ends at the end of the file and logs
    nothing. *)
Theorem back_to_back_records_are_all_read b msgs w fuel :
  records_at from_io b 0 msgs ->
  List.length msgs < fuel ->
  iter fuel (DltFile.mkState b 0 w)
  = (List.filter surfaced msgs, Exhausted, DltFile.mkState b (List.length b) w).
Proof.
  intros Hrec Hfuel.
  apply (@back_to_back_records_bounded b (List.length msgs)); [lia | exact Hrec | exact Hfuel].
Qed.

(** ** Termination *)

Local Abbreviation moves_forward := (moves_forward from_io).

Lemma get_next_message_terminates b fuel : forall st,
  moves_forward b ->
  DltFile.content st = b ->
  DltFile.pos st <= List.length b ->
  List.length b - DltFile.pos st < fuel ->
  exists r st',
    get_next_message fuel st = Some (r, st')
    /\ DltFile.pos st' <= List.length b
    /\ (forall m, r = Ok (Some m) -> DltFile.pos st < DltFile.pos st').
Proof.
  induction fuel as [|fuel IH]; intros [c p w] Hmove Hc Hp Hfuel; [lia|].
  simpl in Hc, Hp, Hfuel. subst c.
  destruct (Nat.eq_dec p (List.length b)) as [->|Hne].
  - exists (Ok None), (DltFile.mkState b (List.length b) w).
    split; [apply get_next_message_at_end; reflexivity|].
    split; [simpl; lia | intros m Hm; discriminate].
  - assert (Hlt : p < List.length b) by lia.
    destruct (from_io b p) as [[sm|e] p'] eqn:Hio;
      destruct (Hmove _ _ _ Hlt Hio) as [Hadv Hbound].
    + destruct (DltMessage.loadn sm None) as [msg|e] eqn:El.
      * rewrite (@get_next_message_ok from_io filters capture_raw fuel b p w sm p' msg
                   Hne Hio El).
        destruct (surfaced msg).
        -- exists (Ok (Some msg)), (DltFile.mkState b p' w).
           split; [reflexivity|]. split; [exact Hbound | intros m _; exact Hadv].
        -- destruct (IH (DltFile.mkState b p' w) Hmove eq_refl Hbound)
             as (r & st' & Hr & Hb & Hm); [simpl; lia|].
           exists r, st'. split; [exact Hr|]. split; [exact Hb|].
           intros m Hrm. specialize (Hm m Hrm). simpl in *. lia.
      * exists (Raise e), (DltFile.mkState b p' w). split.
        -- cbn [DltFile.get_next_message DltFile.pos DltFile.content DltFile.world].
           unfold DltFile.f_len. cbn [DltFile.content].
           apply Nat.eqb_neq in Hne. rewrite Hne, Hio.
           change (DltMessage.loadn sm _) with (DltMessage.loadn sm None).
           rewrite El. reflexivity.
        -- split; [exact Hbound | intros m Hm; discriminate].
    + rewrite (@get_next_message_fail from_io filters capture_raw fuel b p w e p' Hne Hio).
      set (st1 := DltFile.mkState b p' (emit (LogCantParseMessage p) w)).
      set (st2 := DltFile.recover (List.length b) (p + 1) st1).
      assert (Hc2 : DltFile.content st2 = b) by (unfold st2; rewrite recover_content; reflexivity).
      assert (Hp2 : p < DltFile.pos st2 <= List.length b).
      { destruct (Nat.lt_ge_cases (p + 1) (List.length b)) as [Hin|Hout].
        - pose proof (@recover_pos (List.length b) (p + 1) st1) as H.
          unfold DltFile.f_len in H. simpl in H. specialize (H Hin ltac:(lia)).
          fold st2 in H. lia.
        - unfold st2. rewrite recover_out_of_range; [simpl; lia|].
          unfold DltFile.f_len. simpl. lia. }
      destruct (IH st2 Hmove Hc2) as (r & st' & Hr & Hb & Hm); [lia|lia|].
      exists r, st'. split; [exact Hr|]. split; [exact Hb|].
      intros m Hrm. specialize (Hm m Hrm). simpl. lia.
Qed.

Lemma file_iter_terminates_from b fuel : forall st,
  moves_forward b ->
  DltFile.content st = b ->
  DltFile.pos st <= List.length b ->
  List.length b - DltFile.pos st + 1 < fuel ->
  exists ms e st',
    iter fuel st = (ms, e, st')
    /\ e <> OutOfFuel
    /\ (e = Exhausted -> DltFile.pos st' = List.length b).
Proof.
  induction fuel as [|fuel IH]; intros st Hmove Hc Hp Hfuel; [lia|].
  rewrite file_iter_unfold.
  destruct (@get_next_message_terminates b (S fuel) st Hmove Hc Hp)
    as (r & st' & Hr & Hb & Hm); [lia|].
  rewrite Hr. destruct (file_get_next_message_result _ _ Hr) as [Hc' Hout].
  destruct r as [[m|]|e].
  - specialize (Hm m eq_refl).
    destruct (IH st' Hmove) as (ms & e & st'' & Hi & He & Hx);
      [congruence | exact Hb | lia|].
    rewrite Hi. exists (m :: ms), e, st''. repeat split; assumption.
  - exists [], Exhausted, st'. split; [reflexivity|]. split; [discriminate|].
    intros _. rewrite Hout. unfold DltFile.f_len. congruence.
  - exists [], (Raised e), st'. split; [reflexivity|].
    split; [discriminate | intros H; discriminate].
Qed.

(** X22.  When the parser moves forward in the file, the iteration of a
    [DltFile] ends: with fuel for one turn per byte and two more it does
    not run out, and when it ends for lack of input the file stands at
    its end. *)
Theorem file_iter_terminates b fuel :
  moves_forward b ->
  List.length b + 1 < fuel ->
  exists ms e st',
    iter fuel (DltFile.opened b) = (ms, e, st')
    /\ e <> OutOfFuel
    /\ (e = Exhausted -> DltFile.pos st' = List.length b).
Proof.
  intros Hmove Hfuel.
  apply (@file_iter_terminates_from b fuel (DltFile.opened b) Hmove eq_refl);
    simpl; lia.
Qed.

End FileFacts.

(** ** The file properties on the wire format *)

Lemma file_get_next_message_outcome_witness :
  DltFile.content (DltFile.mkState Samples.quiet_record 30 world0) = Samples.quiet_record
  /\ DltFile.pos (DltFile.mkState Samples.quiet_record 30 world0)
     = DltFile.f_len (DltFile.mkState Samples.quiet_record 30 world0).
Proof.
  apply (@file_get_next_message_outcome Wire.stored_message None false 3
           (DltFile.opened Samples.quiet_record) (Ok None)
           (DltFile.mkState Samples.quiet_record 30 world0)).
  vm_compute; reflexivity.
Defined.

Lemma no_signature_in_truncated_file j :
  43 < j -> DltFile.signature_at MoreSamples.truncated_file j = false.
Proof.
  intros Hj. destruct (DltFile.signature_at MoreSamples.truncated_file j) eqn:E;
    [|reflexivity].
  assert (Hb := signature_at_bound _ _ E).
  change (List.length MoreSamples.truncated_file) with 83 in Hb.
  pose proof (@forallb_below
                (fun q => (q <=? 43) || negb (DltFile.signature_at MoreSamples.truncated_file q))
                83 ltac:(vm_compute; reflexivity) j ltac:(lia)) as H.
  cbv beta in H. rewrite E in H.
  destruct (Nat.leb_spec j 43); [lia | discriminate].
Qed.

Lemma failure_without_signature_ends_the_file_witness :
  DltFile.get_next_message Wire.stored_message None false 2
    (DltFile.mkState MoreSamples.truncated_file 43 world0)
  = Some (Ok None,
          DltFile.mkState MoreSamples.truncated_file
            (List.length MoreSamples.truncated_file)
            (emit (LogCantParseMessage 43) world0)).
Proof.
  apply (@failure_without_signature_ends_the_file Wire.stored_message None false
           MoreSamples.truncated_file 43 EOFError 83 world0 0).
  - vm_compute; lia.
  - vm_compute; reflexivity.
  - left. vm_compute; lia.
  - apply no_signature_in_truncated_file.
Defined.

Example truncated_file_yields_its_first_record :
  fst (Wire.file_iter None MoreSamples.truncated_file)
  = ([Samples.verbose_message], Exhausted).
Proof. vm_compute; reflexivity. Qed.

Lemma three_records_decode :
  records_at Wire.stored_message MoreSamples.three_records 0
    [Samples.verbose_message; MoreSamples.quiet_message; MoreSamples.boot_message].
Proof.
  eapply records_next with (stop := 43);
    [vm_compute; lia | lazy; reflexivity | vm_compute; reflexivity |].
  eapply records_next with (stop := 73);
    [vm_compute; lia | lazy; reflexivity | vm_compute; reflexivity |].
  eapply records_next with (stop := 107);
    [vm_compute; lia | lazy; reflexivity | vm_compute; reflexivity |].
  apply records_end.
Qed.

Lemma back_to_back_records_are_all_read_witness :
  DltFile.iter Wire.stored_message None false 4
    (DltFile.mkState MoreSamples.three_records 0 world0)
  = ([Samples.verbose_message; MoreSamples.boot_message], Exhausted,
     DltFile.mkState MoreSamples.three_records
       (List.length MoreSamples.three_records) world0).
Proof.
  apply (@back_to_back_records_are_all_read Wire.stored_message None false
           MoreSamples.three_records _ world0 4 three_records_decode).
  simpl; lia.
Defined.

Lemma wire_moves_forward_on_sample :
  moves_forward Wire.stored_message
    (Samples.verbose_record ++ Samples.garbage ++ Samples.verbose_record).
Proof.
  intros p r p' Hlt Hio.
  change (List.length (Samples.verbose_record ++ Samples.garbage ++ Samples.verbose_record))
    with 93 in *.
  pose proof (@forallb_below
                (fun q => let (_, q') :=
                            Wire.stored_message
                              (Samples.verbose_record ++ Samples.garbage
                               ++ Samples.verbose_record) q in
                          (q <? q') && (q' <=? 93))
                93 ltac:(vm_compute; reflexivity) p Hlt) as H.
  cbv beta in H. rewrite Hio in H. apply andb_true_iff in H.
  destruct H as [H1 H2]. apply Nat.ltb_lt in H1. apply Nat.leb_le in H2. lia.
Qed.

Lemma file_iter_terminates_witness :
  exists ms e st',
    DltFile.iter Wire.stored_message None false 95
      (DltFile.opened (Samples.verbose_record ++ Samples.garbage ++ Samples.verbose_record))
    = (ms, e, st')
    /\ e <> OutOfFuel
    /\ (e = Exhausted ->
        DltFile.pos st'
        = List.length (Samples.verbose_record ++ Samples.garbage ++ Samples.verbose_record)).
Proof.
  apply (@file_iter_terminates Wire.stored_message None false
           (Samples.verbose_record ++ Samples.garbage ++ Samples.verbose_record) 95
           wire_moves_forward_on_sample).
  vm_compute; lia.
Defined.


(** ** The filter list as a filter on the unfiltered iteration *)

Section FileFilterFacts.

Variable from_io : bytes -> nat -> result Raw * nat.
Variable capture_raw : bool.

(** More fuel does not change what [get_next_message] returns. *)
Lemma get_next_message_more_fuel filters k : forall st x,
  DltFile.get_next_message from_io filters capture_raw k st = Some x ->
  DltFile.get_next_message from_io filters capture_raw (S k) st = Some x.
Proof.
  induction k as [|k IH]; intros st x; [discriminate|].
  intros H. cbn [DltFile.get_next_message] in H |- *.
  destruct (DltFile.pos st =? DltFile.f_len st); [exact H|].
  destruct (from_io (DltFile.content st) (DltFile.pos st)) as [[sm|e] p];
    [|apply IH, H].
  destruct (DltMessage.loadn sm _) as [msg|e]; [|exact H].
  destruct (truthy (verbose msg)); [|apply IH, H].
  destruct filters as [fs|]; [|exact H].
  destruct (negb (DltMessage.match_ msg fs)); [apply IH, H | exact H].
Qed.

Lemma get_next_message_fuel_le filters k k' st x :
  k <= k' ->
  DltFile.get_next_message from_io filters capture_raw k st = Some x ->
  DltFile.get_next_message from_io filters capture_raw k' st = Some x.
Proof.
  induction 1 as [|k' _ IH]; [trivial|].
  intros H. apply get_next_message_more_fuel, IH, H.
Qed.

Lemma get_next_message_fuel_agree filters k1 k2 st x y :
  DltFile.get_next_message from_io filters capture_raw k1 st = Some x ->
  DltFile.get_next_message from_io filters capture_raw k2 st = Some y ->
  x = y.
Proof.
  intros H1 H2.
  apply (@get_next_message_fuel_le filters k1 (Nat.max k1 k2)) in H1; [|lia].
  apply (@get_next_message_fuel_le filters k2 (Nat.max k1 k2)) in H2; [|lia].
  congruence.
Qed.

Variable fs : list filter_pair.

Local Abbreviation plain := (DltFile.get_next_message from_io None capture_raw).
Local Abbreviation filtered :=
  (DltFile.get_next_message from_io (Some fs) capture_raw).

(** One call with the filter list against one call without: the same
    outcome, unless the call without returns a message that the list does
    not match; the call with the list then goes on from there. *)
Lemma filtered_follows_plain k : forall st r st1,
  plain k st = Some (r, st1) ->
  match r with
  | Ok (Some m) =>
    if DltMessage.match_ m fs then filtered k st = Some (r, st1)
    else exists j, j < k /\ filtered k st = filtered j st1
  | _ => filtered k st = Some (r, st1)
  end.
Proof.
  induction k as [|k IH]; intros st r st1; [discriminate|].
  assert (Hnext : forall st2,
            plain k st2 = Some (r, st1) ->
            match r with
            | Ok (Some m) =>
              if DltMessage.match_ m fs then filtered k st2 = Some (r, st1)
              else exists j, j < S k /\ filtered k st2 = filtered j st1
            | _ => filtered k st2 = Some (r, st1)
            end).
  { intros st2 H. apply IH in H. destruct r as [[m|]|e]; try exact H.
    destruct (DltMessage.match_ m fs); [exact H|].
    destruct H as (j & Hj & H). exists j. split; [lia | exact H]. }
  cbn [DltFile.get_next_message].
  destruct (DltFile.pos st =? DltFile.f_len st).
  - intros H. injection H as <- <-. reflexivity.
  - destruct (from_io (DltFile.content st) (DltFile.pos st)) as [[sm|e] p];
      [|apply Hnext].
    destruct (DltMessage.loadn sm _) as [msg|e].
    + destruct (truthy (verbose msg)); [|apply Hnext].
      intros H. injection H as <- <-.
      destruct (DltMessage.match_ msg fs); simpl; [reflexivity|].
      exists k. split; [lia | reflexivity].
    + intros H. injection H as <- <-. reflexivity.
Qed.

Variable b : bytes.
Hypothesis Hmove : moves_forward from_io b.

Lemma filtered_iter_follows_plain f : forall st f',
  DltFile.content st = b ->
  DltFile.pos st <= List.length b ->
  List.length b - DltFile.pos st + 1 < f ->
  List.length b - DltFile.pos st + 1 < f' ->
  let '(ms, e, st') := DltFile.iter from_io None capture_raw f st in
  DltFile.iter from_io (Some fs) capture_raw f' st
  = (List.filter (fun m => DltMessage.match_ m fs) ms, e, st').
Proof.
  induction f as [|f IH]; intros st f' Hc Hp Hf Hf'; [lia|].
  destruct f' as [|f']; [lia|].
  destruct (@get_next_message_terminates from_io None capture_raw b (S f) st Hmove Hc Hp)
    as (r & st1 & Hr & Hb1 & Hm1); [lia|].
  destruct (@get_next_message_terminates from_io (Some fs) capture_raw b (S f') st
              Hmove Hc Hp) as (r' & st1' & Hr' & Hb1' & Hm1'); [lia|].
  assert (Hc1 : DltFile.content st1 = b).
  { destruct (@file_get_next_message_result from_io None capture_raw _ _ _ _ Hr) as [H _].
    congruence. }
  rewrite !file_iter_unfold, Hr.
  (* both calls at a common fuel *)
  pose proof (@get_next_message_fuel_le None (S f) (Nat.max (S f) (S f')) st _
                ltac:(lia) Hr) as Hcommon.
  apply filtered_follows_plain in Hcommon.
  pose proof (@get_next_message_fuel_le (Some fs) (S f') (Nat.max (S f) (S f')) st _
                ltac:(lia) Hr') as Hcommon'.
  destruct r as [[m|]|e].
  - specialize (Hm1 m eq_refl). cbn [List.filter].
    destruct (DltMessage.match_ m fs) eqn:Em.
    + rewrite Hcommon in Hcommon'. injection Hcommon' as <- <-. rewrite Hr'.
      specialize (IH st1 f' Hc1 Hb1 ltac:(lia) ltac:(lia)).
      destruct (DltFile.iter from_io None capture_raw f st1) as [[ms e] st'].
      rewrite IH. cbn [List.filter]. rewrite Em. reflexivity.
    + specialize (IH st1 (S f') Hc1 Hb1 ltac:(lia) ltac:(lia)).
      destruct Hcommon as (j & _ & Hj). rewrite Hj in Hcommon'.
      destruct (@get_next_message_terminates from_io (Some fs) capture_raw b
                  (S f') st1 Hmove Hc1 Hb1) as (r2 & st2 & Hr2 & _ & _); [lia|].
      assert (Heq : (r2, st2) = (r', st1'))
        by (apply (@get_next_message_fuel_agree (Some fs) _ _ _ _ _ Hr2 Hcommon')).
      injection Heq as -> ->.
      rewrite file_iter_unfold, Hr2 in IH. rewrite Hr'.
      destruct (DltFile.iter from_io None capture_raw f st1) as [[ms e] st'].
      cbn [List.filter]. rewrite Em. exact IH.
  - rewrite Hcommon in Hcommon'. injection Hcommon' as <- <-. rewrite Hr'. reflexivity.
  - rewrite Hcommon in Hcommon'. injection Hcommon' as <- <-. rewrite Hr'. reflexivity.
Qed.

(** X23.  With a filter list, the iteration of a [DltFile] yields exactly the
    messages of the iteration without one that the list matches, in the
    same order, and ends the same way with the file at the same place. *)
Theorem filter_list_filters_the_plain_iteration fuel ms e st' :
  List.length b + 1 < fuel ->
  DltFile.iter from_io None capture_raw fuel (DltFile.opened b) = (ms, e, st') ->
  DltFile.iter from_io (Some fs) capture_raw fuel (DltFile.opened b)
  = (List.filter (fun m => DltMessage.match_ m fs) ms, e, st').
Proof.
  intros Hfuel Hplain.
  pose proof (@filtered_iter_follows_plain fuel (DltFile.opened b) fuel eq_refl) as H.
  simpl in H. specialize (H ltac:(lia) ltac:(lia) ltac:(lia)).
  rewrite Hplain in H. exact H.
Qed.

End FileFilterFacts.

Lemma filter_list_filters_the_plain_iteration_witness :
  DltFile.iter Wire.stored_message (Some [(Some (str_of_string "APP9"), None)]) false 95
    (DltFile.opened (Samples.verbose_record ++ Samples.garbage ++ Samples.verbose_record))
  = (List.filter
       (fun m => DltMessage.match_ m [(Some (str_of_string "APP9"), None)])
       [Samples.verbose_message; Samples.verbose_message],
     Exhausted,
     DltFile.mkState
       (Samples.verbose_record ++ Samples.garbage ++ Samples.verbose_record) 93
       (mkWorld [LogCantParseMessage 43; LogSignatureFound 45;
                 LogCantParseMessage 45; LogSignatureFound 50] 0)).
Proof.
  apply (@filter_list_filters_the_plain_iteration Wire.stored_message false
           [(Some (str_of_string "APP9"), None)]
           (Samples.verbose_record ++ Samples.garbage ++ Samples.verbose_record)
           wire_moves_forward_on_sample 95).
  - vm_compute; lia.
  - vm_compute; reflexivity.
Defined.
